(** * The quiz state engine of the test-checker bot (src/main.py)

    A shallow embedding of the bot's handlers over an explicit model of its
    SQLite store, and the properties of code allocation, test lifecycle,
    submission recording and ranking that the specification states.

    Conventions of the embedding.
    - Python [str] values are [string]s; the functions of [Py] are exact on
      code points below 128, which is what both message patterns admit.
    - The three tables are the fields of [db].  [users] has a primary key
      and is only ever read by key, so it is a finite map; [tests] and
      [submissions] are lists of rows in insertion (rowid) order, and their
      UNIQUE constraints are checked by the insert operations.  The [id]
      columns are never selected by the code and are left out.
    - [datetime.utcnow().isoformat()] and [randint(1000, 9999)] are inputs of
      the handler that reads them.
    - A handler replies with a constructor of [reply], one per message text.
    - Every [await] on the store is a point where another handler may run;
      handlers are therefore written as phases, composed back to back for a
      handler that runs alone and interleaved by [step]. *)

From Stdlib Require Import ZArith String Ascii List Lia Permutation Sorted.
From stdpp Require Import base decidable option list gmap strings sorting pretty.

Local Open Scope string_scope.
Local Open Scope list_scope.
Local Open Scope Z_scope.

(** ** Python string primitives used by the handlers *)

Module Py.

(** [str.isspace] on one character. *)
Definition isspace (c : ascii) : bool :=
  let n := nat_of_ascii c in
  ((9 <=? n)%nat && (n <=? 13)%nat) || ((28 <=? n)%nat && (n <=? 32)%nat).

Fixpoint lstrip (s : string) : string :=
  match s with
  | String c s' => if isspace c then lstrip s' else s
  | EmptyString => EmptyString
  end.

Definition rstrip (s : string) : string := String.rev (lstrip (String.rev s)).

(** [s.strip()] *)
Definition strip (s : string) : string := rstrip (lstrip s).

Definition lower_char (c : ascii) : ascii :=
  let n := nat_of_ascii c in
  if ((65 <=? n)%nat && (n <=? 90)%nat) then ascii_of_nat (n + 32) else c.

(** [s.lower()] *)
Fixpoint lower (s : string) : string :=
  match s with
  | String c s' => String (lower_char c) (lower s')
  | EmptyString => EmptyString
  end.

Definition is_digit_char (c : ascii) : bool :=
  let n := nat_of_ascii c in (48 <=? n)%nat && (n <=? 57)%nat.

Definition chars (s : string) : list ascii := list_ascii_of_string s.

(** [s.isdigit()]: at least one character, all of them digits. *)
Definition isdigit (s : string) : bool :=
  match s with
  | EmptyString => false
  | _ => forallb is_digit_char (chars s)
  end.

(** [len(s)] *)
Definition len (s : string) : Z := Z.of_nat (String.length s).

Fixpoint int_digits (acc : Z) (cs : list ascii) : option Z :=
  match cs with
  | [] => Some acc
  | c :: cs' =>
      if is_digit_char c
      then int_digits (10 * acc + Z.of_nat (nat_of_ascii c - 48)) cs'
      else None
  end.

(** [int(s)] for the strings the create pattern captures (a nonempty run
    of digits); [None] stands for [ValueError]. *)
Definition int (s : string) : option Z :=
  match s with
  | EmptyString => None
  | _ => int_digits 0 (chars s)
  end.

(** [f"{z}"] *)
Definition format (z : Z) : string := pretty z.

(** [c in "abcd"] for a character [c] *)
Definition in_abcd (c : ascii) : bool :=
  existsb (Ascii.eqb c) (chars "abcd").

(** [all(c in "abcd" for c in s)] *)
Definition all_abcd (s : string) : bool := forallb in_abcd (chars s).

(** [zip(a, b)] on strings *)
Definition zip (a b : string) : list (ascii * ascii) :=
  combine (chars a) (chars b).

(** [sum(...)] of a list of integers *)
Definition sum (l : list Z) : Z := fold_right Z.add 0 l.

End Py.

(** ** Pure helpers of main.py *)

(** [score_answers]: [sum(1 for k, a in zip(key, ans) if k == a)] *)
Definition score_answers (key ans : string) : Z :=
  Py.sum (map (fun _ => 1)
              (List.filter (fun ka => Ascii.eqb (fst ka) (snd ka)) (Py.zip key ans))).

(** [norm]: [s.strip().lower()] *)
Definition norm (s : string) : string := Py.lower (Py.strip s).

(** The character class [[a-dA-D]+] with which both message patterns,
    [CREATE_TEST_RE] and [SUBMIT_RE], capture a key or the answers. *)
Definition choice_letters (s : string) : bool :=
  forallb (fun c => existsb (Ascii.eqb c) (Py.chars "abcdABCD")) (Py.chars s).

(** ** The store: the three tables created by [init_db] *)

(** [users(user_id PRIMARY KEY, role, created_at)]: the row kept under a key *)
Record user_row := UserRow {
  role : string;
  user_created_at : string
}.

(** [tests(code UNIQUE, owner_id, answer_key, length, is_open, created_at)] *)
Record test_row := TestRow {
  code : string;
  owner_id : Z;
  answer_key : string;
  test_length : Z;
  is_open : Z;
  created_at : string
}.

(** [submissions(test_code, user_id, answers, score, submitted_at,
    UNIQUE(test_code, user_id))] *)
Record submission_row := SubmissionRow {
  test_code : string;
  user_id : Z;
  answers : string;
  score : Z;
  submitted_at : string
}.

Record db := Db {
  users : gmap Z user_row;
  tests : list test_row;
  submissions : list submission_row
}.

(** The store right after [init_db] on a fresh file. *)
Definition init_db : db := Db ∅ [] [].

#[global] Instance user_row_eq_dec : EqDecision user_row.
Proof. solve_decision. Defined.
#[global] Instance test_row_eq_dec : EqDecision test_row.
Proof. solve_decision. Defined.
#[global] Instance submission_row_eq_dec : EqDecision submission_row.
Proof. solve_decision. Defined.

(** *** Statements issued by the handlers *)

(** [SELECT role FROM users WHERE user_id = ?], then [row[0] if row else None] *)
Definition get_role (d : db) (uid : Z) : option string :=
  role <$> users d !! uid.

(** [INSERT INTO users ... ON CONFLICT(user_id) DO UPDATE SET role=excluded.role] *)
Definition set_role (d : db) (uid : Z) (r now : string) : db :=
  let row := match users d !! uid with
             | Some u => UserRow r (user_created_at u)
             | None => UserRow r now
             end in
  Db (<[uid := row]> (users d)) (tests d) (submissions d).

(** [SELECT ... FROM tests WHERE code = ?], then [fetchone()] *)
Definition select_test (d : db) (c : string) : option test_row :=
  List.find (fun t => String.eqb (code t) c) (tests d).

(** [INSERT INTO tests(...) VALUES(?, ?, ?, ?, 1, ?)]; [None] is the
    [IntegrityError] of the UNIQUE constraint on [code]. *)
Definition insert_test (d : db) (c : string) (owner : Z) (key : string)
    (n : Z) (now : string) : option db :=
  if existsb (fun t => String.eqb (code t) c) (tests d) then None
  else Some (Db (users d) (tests d ++ [TestRow c owner key n 1 now]) (submissions d)).

(** [SET is_open = 0] on one row *)
Definition closed_row (t : test_row) : test_row :=
  TestRow (code t) (owner_id t) (answer_key t) (test_length t) 0 (created_at t).

(** [UPDATE tests SET is_open = 0 WHERE code = ?] *)
Definition close_test (d : db) (c : string) : db :=
  Db (users d)
     (map (fun t => if String.eqb (code t) c then closed_row t else t) (tests d))
     (submissions d).

(** The rows matched by [FROM submissions WHERE test_code = ?], before ordering *)
Definition select_submissions (d : db) (c : string) : list submission_row :=
  List.filter (fun s => String.eqb (test_code s) c) (submissions d).

(** [INSERT INTO submissions(...) VALUES(?, ?, ?, ?, ?)]; [None] is the
    [IntegrityError] of [UNIQUE(test_code, user_id)]. *)
Definition insert_submission (d : db) (row : submission_row) : option db :=
  if existsb (fun s => String.eqb (test_code s) (test_code row)
                       && Z.eqb (user_id s) (user_id row)) (submissions d)
  then None
  else Some (Db (users d) (tests d) (submissions d ++ [row])).

(** *** [ORDER BY score DESC, submitted_at ASC]

    [score] is an INTEGER column and [submitted_at] a TEXT column compared
    bytewise; it holds [isoformat()] texts, whose bytewise order is their
    order in time.  The clause names no further key, so by the clause
    alone rows that agree on both keys may come in any order. *)

Definition rank_le (a b : submission_row) : Prop :=
  score b < score a ∨ (score a = score b ∧ String.le (submitted_at a) (submitted_at b)).

#[global] Instance rank_le_dec : RelDecision rank_le.
Proof. intros a b. unfold rank_le. apply _. Defined.

(** [out] is an answer the engine may give for the matched rows [rows]. *)
Definition order_by_ok (rows out : list submission_row) : bool :=
  bool_decide (out ≡ₚ rows) && bool_decide (Sorted rank_le out).

(** One such answer: a merge sort of the rows as they are stored. *)
Definition rank_by_insertion (rows : list submission_row) : list submission_row :=
  merge_sort rank_le rows.

(** *** How SQLite answers the query

    SQLite plans both queries as a search through the index that
    [UNIQUE(test_code, user_id)] creates, which yields the rows of the test
    by ascending [user_id], followed by a sort on the two ORDER BY keys
    that keeps rows with equal keys in the order they came in. *)

(** [x] put before the first element it may precede *)
Fixpoint sorted_insert {A} (R : relation A) `{!RelDecision R} (x : A) (l : list A)
    : list A :=
  match l with
  | [] => [x]
  | y :: l' => if decide (R x y) then x :: l else y :: sorted_insert R x l'
  end.

(** A sort that keeps elements with equal keys in their order *)
Definition stable_sort {A} (R : relation A) `{!RelDecision R} (l : list A) : list A :=
  foldr (sorted_insert R) [] l.

Definition user_le (a b : submission_row) : Prop := user_id a ≤ user_id b.

#[global] Instance user_le_dec : RelDecision user_le.
Proof. intros a b. unfold user_le. apply _. Defined.

(** The rows of one test as the index yields them *)
Definition index_scan (rows : list submission_row) : list submission_row :=
  stable_sort user_le rows.

Definition sqlite_order_by (rows : list submission_row) : list submission_row :=
  stable_sort rank_le (index_scan rows).

(** [R] first and, among elements [R] does not separate, [Q]. *)
Definition then_by {A} (R Q : relation A) (a b : A) : Prop := R a b ∧ (R b a → Q a b).

(** The order of the rows SQLite returns: by the two keys of the clause,
    and by [user_id] among rows equal on both. *)
Definition board_le : relation submission_row := then_by rank_le user_le.

(** ** Replies

    One constructor per message a handler can send (or exception it can let
    escape); the spec's name of the condition is given where it has one. *)

(** A leaderboard line [f"{i}. user {uid}: {sc}/{len(key)}"] *)
Record board_line := BoardLine {
  position : Z;
  line_user : Z;
  line_score : Z;
  line_total : Z
}.

Inductive reply :=
  (* cmd_register *)
  | RegisterUsage
  | RoleSet (r : string)
  (* cmd_finish *)
  | AuthorOnly                       (* "the command is for authors only" *)
  | FinishUsage
  | TestNotFound                     (* shared by cmd_finish and handle_submit *)
  | NotOwner
  | AlreadyClosed
  | ClosedNoParticipants (c : string)
  | ClosedWithResults (c : string) (board : list board_line)
  (* handle_create *)
  | NotAnAuthor
  | InvalidAnswerKey
  | KeyLengthMismatch (key_len n : Z)
  | TestCreated (c : string) (n : Z)
  (* handle_submit *)
  | InvalidAnswers
  | TestClosed
  | LengthMismatch (answers_len key_len : Z)
  | DuplicateSubmission
  | Accepted (sc answers_len : Z)
  (* cmd_results *)
  | ResultsUsage
  | ResultsNotFound
  | NoAttempts (c : string) (open : bool)
  | Results (c : string) (open : bool) (board : list board_line)
  (* exceptions no handler catches *)
  | ValueError
  | IntegrityError.

#[global] Instance board_line_eq_dec : EqDecision board_line.
Proof. solve_decision. Defined.
#[global] Instance reply_eq_dec : EqDecision reply.
Proof. solve_decision. Defined.

(** What a phase of a handler hands on: the reply that ends the handler, or
    the values it carries across the next [await]. *)
Inductive outcome (A : Type) :=
  | Done (r : reply)
  | Next (a : A).
Arguments Done {A} r.
Arguments Next {A} a.

(** [for i, (uid, _, sc) in enumerate(rows[:k], 1)]: one line per row *)
Definition board (k : nat) (key : string) (rows : list submission_row) : list board_line :=
  imap (fun i s => BoardLine (Z.of_nat i + 1) (user_id s) (score s) (Py.len key))
       (take k rows).

(** ** The handlers *)

(** [generate_unique_code]: [draws] are the successive values of
    [randint(1000, 9999)]; the loop returns at the first one whose text is
    not the code of a stored test.  [None]: every listed draw collided and
    the loop is still running. *)
Fixpoint generate_unique_code (d : db) (draws : list Z) : option string :=
  match draws with
  | [] => None
  | z :: draws' =>
      let c := Py.format z in
      match select_test d c with
      | Some _ => generate_unique_code d draws'
      | None => Some c
      end
  end.

(** [cmd_register] *)
Definition cmd_register (d : db) (uid : Z) (parts : list string) (now : string)
    : db * reply :=
  match parts !! 1%nat with
  | Some r =>
      if String.eqb r "author" || String.eqb r "participant"
      then (set_role d uid r now, RoleSet r)
      else (d, RegisterUsage)
  | None => (d, RegisterUsage)
  end.

Definition is_author (r : option string) : bool :=
  match r with
  | Some r => String.eqb r "author"
  | None => false
  end.

Section Handlers.

(** The answer of the engine to the ORDER BY clause of both queries. *)
Variable order_by : list submission_row → list submission_row.

(** *** [cmd_finish] *)

(** Up to the first statement on the handler's own connection: the role
    gate and the shape of the command. *)
Definition finish_gate (d : db) (uid : Z) (parts : list string) : outcome string :=
  if negb (is_author (get_role d uid)) then Done AuthorOnly
  else match parts !! 1%nat with
       | Some c => if Py.isdigit c then Next c else Done FinishUsage
       | None => Done FinishUsage
       end.

(** The SELECT of the test row and the three checks on it. *)
Definition finish_lookup (d : db) (uid : Z) (c : string) : outcome string :=
  match select_test d c with
  | None => Done TestNotFound
  | Some row =>
      if negb (Z.eqb (owner_id row) uid) then Done NotOwner
      else if Z.eqb (is_open row) 0 then Done AlreadyClosed
      else Next (answer_key row)
  end.

(** UPDATE, SELECT of the submissions and commit: one transaction. *)
Definition finish_write (d : db) (c key : string) : db * reply :=
  let d' := close_test d c in
  let rows := order_by (select_submissions d' c) in
  (d', match rows with
       | [] => ClosedNoParticipants c
       | _ => ClosedWithResults c (board 10 key rows)
       end).

Definition cmd_finish (d : db) (uid : Z) (parts : list string) : db * reply :=
  match finish_gate d uid parts with
  | Done r => (d, r)
  | Next c =>
      match finish_lookup d uid c with
      | Done r => (d, r)
      | Next key => finish_write d c key
      end
  end.

(** *** [handle_create] *)

(** The role gate, [int(n_str)], and the two checks on the key. *)
Definition create_check (d : db) (uid : Z) (n_str key_raw : string)
    : outcome (Z * string) :=
  if negb (is_author (get_role d uid)) then Done NotAnAuthor
  else match Py.int n_str with
       | None => Done ValueError
       | Some n =>
           let key := norm key_raw in
           if negb (Py.all_abcd key) then Done InvalidAnswerKey
           else if negb (Z.eqb (Py.len key) n)
                then Done (KeyLengthMismatch (Py.len key) n)
                else Next (n, key)
       end.

(** The INSERT and its commit. *)
Definition create_write (d : db) (uid n : Z) (key c now : string) : db * reply :=
  match insert_test d c uid key n now with
  | Some d' => (d', TestCreated c n)
  | None => (d, IntegrityError)
  end.

(** [None]: the allocation loop has not returned on the listed draws. *)
Definition handle_create (d : db) (uid : Z) (n_str key_raw : string)
    (draws : list Z) (now : string) : option (db * reply) :=
  match create_check d uid n_str key_raw with
  | Done r => Some (d, r)
  | Next (n, key) =>
      match generate_unique_code d draws with
      | None => None
      | Some c => Some (create_write d uid n key c now)
      end
  end.

(** *** [handle_submit] *)

(** The check of the letters, the SELECT of the test row and the checks
    on it; hands on the normalised answers and the key. *)
Definition submit_check (d : db) (c ans_raw : string) : outcome (string * string) :=
  let answers := norm ans_raw in
  if negb (Py.all_abcd answers) then Done InvalidAnswers
  else match select_test d c with
       | None => Done TestNotFound
       | Some row =>
           let key := answer_key row in
           if Z.eqb (is_open row) 0 then Done TestClosed
           else if negb (Z.eqb (Py.len answers) (Py.len key))
                then Done (LengthMismatch (Py.len answers) (Py.len key))
                else Next (answers, key)
       end.

(** Scoring, the INSERT and its commit. *)
Definition submit_write (d : db) (uid : Z) (c answers key now : string)
    : db * reply :=
  let sc := score_answers key answers in
  match insert_submission d (SubmissionRow c uid answers sc now) with
  | Some d' => (d', Accepted sc (Py.len answers))
  | None => (d, DuplicateSubmission)
  end.

Definition handle_submit (d : db) (uid : Z) (c ans_raw now : string) : db * reply :=
  match submit_check d c ans_raw with
  | Done r => (d, r)
  | Next (answers, key) => submit_write d uid c answers key now
  end.

(** *** [cmd_results] *)

Definition cmd_results (d : db) (parts : list string) : reply :=
  match parts !! 1%nat with
  | None => ResultsUsage
  | Some c =>
      match select_test d c with
      | None => ResultsNotFound
      | Some row =>
          let rows := order_by (select_submissions d c) in
          let open := negb (Z.eqb (is_open row) 0) in
          match rows with
          | [] => NoAttempts c open
          | _ => Results c open (board 15 (answer_key row) rows)
          end
      end
  end.

End Handlers.

(** ** Handlers in flight

    aiogram runs each update as a task of its own, and a handler gives up
    control at every [await] on the store.  A handler that is between two of
    its statements is kept with the values it holds in local variables. *)

Inductive pending :=
  | FinishLookup (uid : Z) (c : string)            (* before the SELECT of cmd_finish *)
  | FinishWrite (c key : string)                   (* before its UPDATE *)
  | CreateAlloc (uid n : Z) (key : string)         (* inside generate_unique_code *)
  | CreateWrite (uid n : Z) (key c now : string)   (* before the INSERT of handle_create *)
  | SubmitWrite (uid : Z) (c answers key now : string)
                                                   (* before the INSERT of handle_submit *).

Record sys := Sys {
  store : db;
  inflight : list pending
}.

Inductive event :=
  | Register (uid : Z) (parts : list string) (now : string)
  | Finish (uid : Z) (parts : list string)
  | Create (uid : Z) (n_str key_raw : string)
  (* [now]: the clock as [handle_submit] reads it once its checks have passed *)
  | Submit (uid : Z) (c ans_raw now : string)
  | ViewResults (parts : list string)
  (* the [i]-th handler in flight runs its next phase; inside
     [generate_unique_code] it makes the draws [draws], and reads the clock
     as [now] if one of them ends the loop *)
  | Resume (i : nat) (draws : list Z) (now : string).

Section System.

Variable order_by : list submission_row → list submission_row.

Definition start {A} (s : sys) (o : outcome A) (k : A → pending) : sys * option reply :=
  match o with
  | Done r => (s, Some r)
  | Next a => (Sys (store s) (inflight s ++ [k a]), None)
  end.

Definition resume (d : db) (rest : list pending) (p : pending)
    (draws : list Z) (now : string) : sys * option reply :=
  match p with
  | FinishLookup uid c =>
      start (Sys d rest) (finish_lookup d uid c) (FinishWrite c)
  | FinishWrite c key =>
      let '(d', r) := finish_write order_by d c key in (Sys d' rest, Some r)
  | CreateAlloc uid n key =>
      match generate_unique_code d draws with
      | None => (Sys d (rest ++ [p]), None)
      | Some c => (Sys d (rest ++ [CreateWrite uid n key c now]), None)
      end
  | CreateWrite uid n key c t =>
      let '(d', r) := create_write d uid n key c t in (Sys d' rest, Some r)
  | SubmitWrite uid c answers key t =>
      let '(d', r) := submit_write d uid c answers key t in (Sys d' rest, Some r)
  end.

(** One scheduling step: a new update is dispatched, or a handler in
    flight goes on.  The reply, if the step sends one. *)
Definition step (s : sys) (e : event) : sys * option reply :=
  let d := store s in
  match e with
  | Register uid parts now =>
      let '(d', r) := cmd_register d uid parts now in (Sys d' (inflight s), Some r)
  | Finish uid parts =>
      start s (finish_gate d uid parts) (FinishLookup uid)
  | Create uid n_str key_raw =>
      start s (create_check d uid n_str key_raw) (fun nk => CreateAlloc uid (fst nk) (snd nk))
  | Submit uid c ans_raw now =>
      start s (submit_check d c ans_raw) (fun ak => SubmitWrite uid c (fst ak) (snd ak) now)
  | ViewResults parts =>
      (* read-only; its two SELECTs are taken against the same store *)
      (s, Some (cmd_results order_by d parts))
  | Resume i draws now =>
      match inflight s !! i with
      | None => (s, None)
      | Some p => resume d (delete i (inflight s)) p draws now
      end
  end.

(** The state after a schedule, and the replies sent on the way. *)
Fixpoint run (s : sys) (es : list event) : sys * list reply :=
  match es with
  | [] => (s, [])
  | e :: es' =>
      let '(s', r) := step s e in
      let '(s'', rs) := run s' es' in
      (s'', (option_list r ++ rs)%list)
  end.

End System.

Definition init_sys : sys := Sys init_db [].

(** The states the bot can be in: those some schedule leads to. *)
Definition reachable (s : sys) : Prop :=
  ∃ order_by es, (run order_by init_sys es).1 = s.

(** ** The specification's wording of the score, to compare with the code *)

(** [count(i : answers[i] == answerKey[i])] over the indices below [n] *)
Definition matching_positions (n : nat) (key ans : string) : Z :=
  Z.of_nat (List.length
    (List.filter (fun i => match String.get i key, String.get i ans with
                           | Some k, Some a => Ascii.eqb a k
                           | _, _ => false
                           end) (seq 0 n))).


(** ** Notions the properties are stated with *)

Definition codes (d : db) : list string := code <$> tests d.

Definition pair_of (s : submission_row) : string * Z := (test_code s, user_id s).

Definition pairs (d : db) : list (string * Z) := pair_of <$> submissions d.

(** The two UNIQUE constraints of the schema. *)
Definition constraints (d : db) : Prop := NoDup (codes d) ∧ NoDup (pairs d).

(** How a later store relates to an earlier one: codes and submissions are
    only appended, and a closed test is found closed. *)
Definition grows (d d' : db) : Prop :=
  codes d `prefix_of` codes d'
  ∧ submissions d `prefix_of` submissions d'
  ∧ (∀ c row, select_test d c = Some row → is_open row = 0 →
              select_test d' c = Some row).

Definition evolves (d d' : db) : Prop :=
  grows d d' ∧ (constraints d → constraints d').

(** What [randint(1000, 9999)] can return. *)
Definition four_digit (z : Z) : Prop := 1000 ≤ z ≤ 9999.

(** ** Stores and schedules used as examples *)

(** A store with one author, user 1, who owns the tests of the first [k]
    codes from 1000 on, each created with the message [1 +a]. *)
Definition issued (k : nat) : list test_row :=
  (fun i => TestRow (Py.format (1000 + Z.of_nat i)) 1 "a" 1 1 "2024-01-01T00:00:00") <$> seq 0 k.

Definition author_db (ts : list test_row) : db :=
  Db (users (set_role init_db 1 "author" "2024-01-01T00:00:00")) ts [].

(** All 9000 codes issued. *)
Definition exhausted_db : db := author_db (issued (Z.to_nat 9000)).

(** The store of the first issued test, "1000" with key "a", and the same
    store after user 2 has answered it. *)
Definition one_test_db : db := author_db (issued 1).

Definition one_answer_db : db := (handle_submit one_test_db 2 "1000" "a" "2024-01-01T00:00:02").1.

(** The three submissions of the specification's example, in the order it
    lists them: U1 with score 3 at second 10, U2 with score 3 at second 5,
    U3 with score 5 at second 20, on a test of five questions. *)
Definition example_schedule : list event :=
  [ Register 9 ["/register"; "author"] "2024-01-01T00:00:00";
    Create 9 "5" "abcda"; Resume 0 [1000] "2024-01-01T00:00:01"; Resume 0 [] "";
    Submit 1 "1000" "abccc" "2024-01-01T00:00:10"; Resume 0 [] "";
    Submit 2 "1000" "abcbb" "2024-01-01T00:00:05"; Resume 0 [] "";
    Submit 3 "1000" "abcda" "2024-01-01T00:00:20"; Resume 0 [] "" ].

Definition example_sys : sys := (run rank_by_insertion init_sys example_schedule).1.

Definition example_rows : list submission_row :=
  [ SubmissionRow "1000" 1 "abccc" 3 "2024-01-01T00:00:10";
    SubmissionRow "1000" 2 "abcbb" 3 "2024-01-01T00:00:05";
    SubmissionRow "1000" 3 "abcda" 5 "2024-01-01T00:00:20" ].

(** Two participants whose answers score the same and were stamped with the
    same clock reading; user 2 was recorded first. *)
Definition tie_schedule : list event :=
  [ Register 9 ["/register"; "author"] "2024-01-01T00:00:00";
    Create 9 "2" "ab"; Resume 0 [1000] "2024-01-01T00:00:01"; Resume 0 [] "";
    Submit 2 "1000" "bb" "2024-01-01T00:00:07"; Resume 0 [] "";
    Submit 1 "1000" "aa" "2024-01-01T00:00:07"; Resume 0 [] "" ].

Definition tie_sys : sys := (run sqlite_order_by init_sys tie_schedule).1.

Definition tie_rows : list submission_row :=
  [ SubmissionRow "1000" 2 "bb" 1 "2024-01-01T00:00:07";
    SubmissionRow "1000" 1 "aa" 1 "2024-01-01T00:00:07" ].

(** A submit whose checks run while the test is open and whose INSERT runs
    after the close of the same test has committed. *)
Definition race_schedule : list event :=
  [ Register 9 ["/register"; "author"] "2024-01-01T00:00:00";
    Create 9 "2" "ab"; Resume 0 [1000] "2024-01-01T00:00:01"; Resume 0 [] "";
    Submit 1 "1000" "ab" "2024-01-01T00:00:09";
                                    (* handle_submit: SELECT, the test is open *)
    Finish 9 ["/finish"; "1000"];
    Resume 1 [] "";                 (* cmd_finish: SELECT of the test row *)
    Resume 1 [] "";                 (* cmd_finish: UPDATE, snapshot, commit *)
    Resume 0 [] ""                  (* handle_submit: INSERT, commit *) ].

Definition race_db : db :=
  Db (users (set_role init_db 9 "author" "2024-01-01T00:00:00"))
     [TestRow "1000" 9 "ab" 2 0 "2024-01-01T00:00:01"]
     [SubmissionRow "1000" 1 "ab" 2 "2024-01-01T00:00:09"].

(** ** Notions of the properties of the whole store *)

(** The two words [cmd_register] accepts. *)
Definition valid_role (r : string) : Prop := r = "author" ∨ r = "participant".

(** A stored test at two moments: nothing but [is_open] differs, and
    [is_open] has stayed or gone to 0. *)
Definition same_test (t t' : test_row) : Prop :=
  code t' = code t ∧ owner_id t' = owner_id t ∧ answer_key t' = answer_key t
  ∧ test_length t' = test_length t ∧ created_at t' = created_at t
  ∧ (is_open t' = is_open t ∨ is_open t' = 0).

(** A later store keeps every user, with the [created_at] of the first
    registration, and every test. *)
Definition extends (d d' : db) : Prop :=
  (∀ uid u, users d !! uid = Some u →
            ∃ u', users d' !! uid = Some u' ∧ user_created_at u' = user_created_at u)
  ∧ (∀ c t, select_test d c = Some t →
            ∃ t', select_test d' c = Some t' ∧ same_test t t').

Definition well_formed_test (d : db) (t : test_row) : Prop :=
  Py.all_abcd (answer_key t) = true
  ∧ Py.len (answer_key t) = test_length t
  ∧ (is_open t = 1 ∨ is_open t = 0)
  ∧ is_Some (users d !! owner_id t).

Definition well_formed_submission (d : db) (s : submission_row) : Prop :=
  ∃ t, select_test d (test_code s) = Some t
       ∧ Py.all_abcd (answers s) = true
       ∧ Py.len (answers s) = Py.len (answer_key t)
       ∧ score s = score_answers (answer_key t) (answers s).

(** What a handler in flight holds in its local variables. *)
Definition well_formed_pending (d : db) (p : pending) : Prop :=
  match p with
  | FinishLookup _ _ | FinishWrite _ _ => True
  | CreateAlloc uid n key | CreateWrite uid n key _ _ =>
      Py.all_abcd key = true ∧ Py.len key = n ∧ is_Some (users d !! uid)
  | SubmitWrite _ c answers key _ =>
      Py.all_abcd answers = true ∧ Py.len answers = Py.len key
      ∧ ∃ t, select_test d c = Some t ∧ answer_key t = key
  end.

Definition well_formed (s : sys) : Prop :=
  (∀ uid u, users (store s) !! uid = Some u → valid_role (role u))
  ∧ Forall (well_formed_test (store s)) (tests (store s))
  ∧ Forall (well_formed_submission (store s)) (submissions (store s))
  ∧ Forall (well_formed_pending (store s)) (inflight s).

(** * Properties *)

(** ** Scoring *)

Section Scoring.

Lemma score_answers_nil_l ans : score_answers "" ans = 0.
Proof. reflexivity. Qed.

Lemma score_answers_nil_r key : score_answers key "" = 0.
Proof. by destruct key. Qed.

Lemma score_answers_cons k key a ans :
  score_answers (String k key) (String a ans)
  = (if Ascii.eqb k a then 1 else 0) + score_answers key ans.
Proof.
  unfold score_answers, Py.zip, Py.chars. simpl.
  by destruct (Ascii.eqb k a).
Qed.

Lemma matching_positions_0 key ans : matching_positions 0 key ans = 0.
Proof. reflexivity. Qed.

Lemma filter_shift_length (P Q : nat → bool) (l : list nat) :
  (∀ i, P (S i) = Q i) →
  List.length (List.filter P (map S l)) = List.length (List.filter Q l).
Proof.
  intros HPQ. induction l as [|i l IH]; [done|].
  cbn [map List.filter]. rewrite HPQ.
  destruct (Q i); cbn [List.length]; by rewrite IH.
Qed.

Lemma matching_positions_S n k key a ans :
  matching_positions (S n) (String k key) (String a ans)
  = (if Ascii.eqb k a then 1 else 0) + matching_positions n key ans.
Proof.
  unfold matching_positions.
  rewrite <- cons_seq, <- seq_shift.
  match goal with
  | |- context [List.filter ?f (0%nat :: ?l)] =>
      change (List.filter f (0%nat :: l))
        with (if Ascii.eqb a k then 0%nat :: List.filter f l else List.filter f l)
  end.
  rewrite (Ascii.eqb_sym a k).
  pose proof (filter_shift_length
    (fun i => match String.get i (String k key), String.get i (String a ans) with
              | Some k0, Some a0 => Ascii.eqb a0 k0
              | _, _ => false
              end)
    (fun i => match String.get i key, String.get i ans with
              | Some k0, Some a0 => Ascii.eqb a0 k0
              | _, _ => false
              end) (seq 0 n) (fun i => eq_refl)) as Hlen.
  destruct (Ascii.eqb k a); cbn [List.length]; rewrite Hlen; lia.
Qed.

Lemma score_answers_matching key : ∀ ans,
  score_answers key ans
  = matching_positions (Nat.min (String.length key) (String.length ans)) key ans.
Proof.
  induction key as [|k key IH]; intros [|a ans]; cbn [String.length Nat.min].
  - done.
  - done.
  - by rewrite score_answers_nil_r.
  - by rewrite score_answers_cons, matching_positions_S, IH.
Qed.

Lemma score_answers_bounds key : ∀ ans,
  (0 ≤ score_answers key ans
     ≤ Z.of_nat (Nat.min (String.length key) (String.length ans)))%Z.
Proof.
  induction key as [|k key IH]; intros [|a ans]; cbn [String.length Nat.min].
  - done.
  - done.
  - by rewrite score_answers_nil_r.
  - rewrite score_answers_cons. specialize (IH ans).
    destruct (Ascii.eqb k a); lia.
Qed.

Lemma score_answers_prefix key : ∀ ans,
  let m := Nat.min (String.length key) (String.length ans) in
  score_answers key ans = score_answers (substring 0 m key) (substring 0 m ans).
Proof.
  induction key as [|k key IH]; intros [|a ans]; cbn [String.length Nat.min substring].
  - done.
  - done.
  - done.
  - rewrite !score_answers_cons. f_equal. apply IH.
Qed.

End Scoring.

(** C3.  For answer strings [key] and [ans] of equal length over a, b, c, d
    the score is the number of positions at which they agree, position by
    position, and lies between 0 and that length; the three scores the
    specification lists are 4, 0 and 2. *)
Theorem score_answers_positional :
  ∀ key ans,
    Py.all_abcd key = true → Py.all_abcd ans = true →
    String.length key = String.length ans →
    (score_answers key ans = matching_positions (String.length key) key ans
     ∧ (0 ≤ score_answers key ans ≤ Py.len key)%Z)
    ∧ score_answers "abcd" "abcd" = 4
    ∧ score_answers "abcd" "dcba" = 0
    ∧ score_answers "aabb" "aaaa" = 2.
Proof.
  intros key ans _ _ Hlen. split; [split|done].
  - rewrite score_answers_matching, <- Hlen. by rewrite Nat.min_id.
  - pose proof (score_answers_bounds key ans) as Hb.
    rewrite <- Hlen, Nat.min_id in Hb. exact Hb.
Qed.

Lemma score_answers_positional_witness :
  score_answers "aabb" "aaaa" = matching_positions 4 "aabb" "aaaa"
  ∧ (0 ≤ score_answers "aabb" "aaaa" ≤ 4)%Z.
Proof.
  exact (proj1 (score_answers_positional "aabb" "aaaa" eq_refl eq_refl eq_refl)).
Defined.

(** C10.  For strings of any two lengths the score counts the agreeing
    positions among the first [min (len key) (len ans)] only: it is at most
    that minimum, and it is the score of the two strings cut to it, so what
    lies past the shorter string is ignored and nothing is rejected. *)
Theorem score_answers_shorter :
  ∀ key ans,
    let m := Nat.min (String.length key) (String.length ans) in
    score_answers key ans = matching_positions m key ans
    ∧ (0 ≤ score_answers key ans ≤ Z.of_nat m)%Z
    ∧ score_answers key ans = score_answers (substring 0 m key) (substring 0 m ans).
Proof.
  intros key ans m. split; [|split].
  - apply score_answers_matching.
  - apply score_answers_bounds.
  - apply score_answers_prefix.
Qed.

(** ** The store operations *)

Section Store.

Implicit Types (d : db) (c : string) (t row : test_row) (s : submission_row).

Lemma find_code_None (ts : list test_row) c :
  List.find (fun t => String.eqb (code t) c) ts = None ↔ c ∉ code <$> ts.
Proof.
  induction ts as [|t ts IH]; cbn [List.find fmap list_fmap].
  - split; [intros _; apply not_elem_of_nil|done].
  - rewrite not_elem_of_cons. destruct (String.eqb_spec (code t) c) as [->|Hne].
    + split; [done|]. by intros [? _].
    + rewrite IH. split; [by intros ?; split|by intros [_ ?]].
Qed.

Lemma find_code_Some (ts : list test_row) c row :
  List.find (fun t => String.eqb (code t) c) ts = Some row → row ∈ ts ∧ code row = c.
Proof.
  induction ts as [|t ts IH]; cbn [List.find]; [done|].
  destruct (String.eqb_spec (code t) c) as [Heq|Hne].
  - intros [= <-]. split; [left|done].
  - intros [Hin ?]%IH. split; [by right|done].
Qed.

Lemma find_code_app (ts ts' : list test_row) c :
  List.find (fun t => String.eqb (code t) c) (ts ++ ts')
  = match List.find (fun t => String.eqb (code t) c) ts with
    | Some row => Some row
    | None => List.find (fun t => String.eqb (code t) c) ts'
    end.
Proof.
  induction ts as [|t ts IH]; cbn [List.find app]; [done|].
  by destruct (String.eqb (code t) c).
Qed.

Lemma existsb_code (ts : list test_row) c :
  existsb (fun t => String.eqb (code t) c) ts = true ↔ c ∈ code <$> ts.
Proof.
  induction ts as [|t ts IH]; cbn [existsb fmap list_fmap].
  - split; [done|]. by intros ?%elem_of_nil.
  - rewrite orb_true_iff, IH, elem_of_cons.
    destruct (String.eqb_spec (code t) c); intuition congruence.
Qed.

Lemma select_test_None d c : select_test d c = None ↔ c ∉ codes d.
Proof. apply find_code_None. Qed.

Lemma select_test_Some d c row :
  select_test d c = Some row → row ∈ tests d ∧ code row = c.
Proof. apply find_code_Some. Qed.

Lemma select_test_is_Some d c : is_Some (select_test d c) ↔ c ∈ codes d.
Proof.
  rewrite <- not_eq_None_Some, select_test_None.
  split; [apply dec_stable|by intros ? ?].
Qed.

Lemma insert_test_Some d c owner key n now d' :
  insert_test d c owner key n now = Some d' →
  (c ∉ codes d)
  ∧ d' = Db (users d) (tests d ++ [TestRow c owner key n 1 now]) (submissions d).
Proof.
  unfold insert_test.
  destruct (existsb _ _) eqn:Hex; [done|]. intros [= <-]. split; [|done].
  unfold codes. rewrite <- existsb_code. by rewrite Hex.
Qed.

Lemma insert_test_fresh d c owner key n now :
  c ∉ codes d →
  insert_test d c owner key n now
  = Some (Db (users d) (tests d ++ [TestRow c owner key n 1 now]) (submissions d)).
Proof.
  intros Hc. unfold insert_test.
  destruct (existsb _ _) eqn:Hex; [|done]. by apply existsb_code in Hex.
Qed.

Lemma codes_close_test d c : codes (close_test d c) = codes d.
Proof.
  unfold codes, close_test. cbn [tests].
  induction (tests d) as [|t ts IH]; [done|].
  cbn [map fmap list_fmap] in *. rewrite IH. f_equal.
  by destruct (String.eqb (code t) c).
Qed.

Lemma select_test_close_test d c c' :
  select_test (close_test d c) c'
  = (fun t => if String.eqb (code t) c then closed_row t else t) <$> select_test d c'.
Proof.
  unfold select_test, close_test. cbn [tests].
  induction (tests d) as [|t ts IH]; [done|]. cbn [map List.find].
  destruct (String.eqb (code t) c) eqn:Hc; cbn [code closed_row];
    destruct (String.eqb (code t) c'); rewrite ?IH; cbn; by rewrite ?Hc.
Qed.

Lemma closed_row_id t : is_open t = 0 → closed_row t = t.
Proof. destruct t; cbn. by intros ->. Qed.

Lemma existsb_pair (ss : list submission_row) c uid :
  existsb (fun s => String.eqb (test_code s) c && Z.eqb (user_id s) uid) ss = true
  ↔ (c, uid) ∈ pair_of <$> ss.
Proof.
  induction ss as [|s ss IH]; cbn [existsb fmap list_fmap].
  - split; [done|]. by intros ?%elem_of_nil.
  - rewrite orb_true_iff, IH, elem_of_cons, andb_true_iff. unfold pair_of.
    destruct (String.eqb_spec (test_code s) c), (Z.eqb_spec (user_id s) uid);
      intuition congruence.
Qed.

Lemma insert_submission_Some d s d' :
  insert_submission d s = Some d' →
  (pair_of s ∉ pairs d) ∧ d' = Db (users d) (tests d) (submissions d ++ [s]).
Proof.
  unfold insert_submission.
  destruct (existsb _ _) eqn:Hex; [done|]. intros [= <-]. split; [|done].
  unfold pairs, pair_of at 1. rewrite <- existsb_pair. by rewrite Hex.
Qed.

Lemma insert_submission_None d s :
  insert_submission d s = None ↔ pair_of s ∈ pairs d.
Proof.
  unfold insert_submission, pairs, pair_of at 1. rewrite <- existsb_pair.
  by destruct (existsb _ _).
Qed.

End Store.

(** ** How the store changes

    Rows are only ever appended, the only update closes a test, and both
    UNIQUE constraints survive every statement. *)

Section Evolution.

Implicit Types (d : db) (c : string).

(** The four parts of an [evolves] goal, the constraints of the old store
    at hand in the last two. *)
Ltac evolves_parts :=
  split; [split; [|split]|intros [Hcodes Hpairs]; split].

Lemma evolves_refl d : evolves d d.
Proof. by evolves_parts. Qed.

Lemma evolves_trans d1 d2 d3 : evolves d1 d2 → evolves d2 d3 → evolves d1 d3.
Proof.
  intros [(Hc1 & Hs1 & Ho1) Hk1] [(Hc2 & Hs2 & Ho2) Hk2]. split; [split; [|split]|].
  - by etrans.
  - by etrans.
  - intros c row Hrow Hz. eapply Ho2; [|done]. by eapply Ho1.
  - intros Hk. by apply Hk2, Hk1.
Qed.

Lemma evolves_set_role d uid r now : evolves d (set_role d uid r now).
Proof. by evolves_parts. Qed.

Lemma evolves_insert_test d c owner key n now d' :
  insert_test d c owner key n now = Some d' → evolves d d'.
Proof.
  intros [Hfresh ->]%insert_test_Some. evolves_parts; cbn.
  - unfold codes. cbn. rewrite fmap_app. by apply prefix_app_r.
  - done.
  - intros c' row Hrow _. unfold select_test in *. cbn.
    by rewrite find_code_app, Hrow.
  - unfold codes in *. cbn. rewrite fmap_app.
    apply NoDup_app. split; [done|]. split; [|apply NoDup_singleton].
    intros x Hx [->|[]%elem_of_nil]%elem_of_cons. by apply Hfresh.
  - done.
Qed.

Lemma evolves_close_test d c : evolves d (close_test d c).
Proof.
  evolves_parts.
  - by rewrite codes_close_test.
  - done.
  - intros c' row Hrow Hz. rewrite select_test_close_test, Hrow. cbn.
    destruct (String.eqb (code row) c); [|done]. by rewrite closed_row_id.
  - by rewrite codes_close_test.
  - done.
Qed.

Lemma evolves_insert_submission d s d' :
  insert_submission d s = Some d' → evolves d d'.
Proof.
  intros [Hfresh ->]%insert_submission_Some. evolves_parts; cbn.
  - done.
  - by apply prefix_app_r.
  - done.
  - done.
  - unfold pairs in *. cbn. rewrite fmap_app.
    apply NoDup_app. split; [done|]. split; [|apply NoDup_singleton].
    intros x Hx [->|[]%elem_of_nil]%elem_of_cons. by apply Hfresh.
Qed.

Lemma evolves_cmd_register d uid parts now :
  evolves d (cmd_register d uid parts now).1.
Proof.
  unfold cmd_register. destruct (parts !! 1%nat) as [r|]; [|apply evolves_refl].
  destruct (_ || _); [apply evolves_set_role|apply evolves_refl].
Qed.

Lemma evolves_finish_write order_by d c key :
  evolves d (finish_write order_by d c key).1.
Proof. apply evolves_close_test. Qed.

Lemma evolves_create_write d uid n key c now :
  evolves d (create_write d uid n key c now).1.
Proof.
  unfold create_write. destruct (insert_test _ _ _ _ _ _) eqn:Hins.
  - by eapply evolves_insert_test.
  - apply evolves_refl.
Qed.

Lemma evolves_submit_write d uid c answers key now :
  evolves d (submit_write d uid c answers key now).1.
Proof.
  unfold submit_write. destruct (insert_submission _ _) eqn:Hins.
  - by eapply evolves_insert_submission.
  - apply evolves_refl.
Qed.

Lemma store_start {A} s (o : outcome A) k : store (start s o k).1 = store s.
Proof. by destruct o. Qed.

Lemma evolves_step order_by s e : evolves (store s) (store (step order_by s e).1).
Proof.
  destruct e as [uid parts now|uid parts|uid n_str key_raw|uid c ans_raw now|parts|i draws now];
    cbn [step].
  - pose proof (evolves_cmd_register (store s) uid parts now) as H.
    by destruct (cmd_register _ _ _ _).
  - rewrite store_start. apply evolves_refl.
  - rewrite store_start. apply evolves_refl.
  - rewrite store_start. apply evolves_refl.
  - apply evolves_refl.
  - destruct (inflight s !! i) as [p|]; [|apply evolves_refl].
    destruct p as [uid c|c key|uid n key|uid n key c t|uid c answers key t]; cbn [resume].
    + rewrite store_start. apply evolves_refl.
    + pose proof (evolves_finish_write order_by (store s) c key) as H.
      by destruct (finish_write _ _ _ _).
    + destruct (generate_unique_code _ _); apply evolves_refl.
    + pose proof (evolves_create_write (store s) uid n key c t) as H.
      by destruct (create_write _ _ _ _ _ _).
    + pose proof (evolves_submit_write (store s) uid c answers key t) as H.
      by destruct (submit_write _ _ _ _ _ _).
Qed.

Lemma evolves_run order_by es : ∀ s, evolves (store s) (store (run order_by s es).1).
Proof.
  induction es as [|e es IH]; intros s; cbn [run]; [apply evolves_refl|].
  pose proof (evolves_step order_by s e) as Hstep.
  destruct (step order_by s e) as [s' r]. specialize (IH s').
  destruct (run order_by s' es) as [s'' rs]. by eapply evolves_trans.
Qed.

Lemma constraints_init : constraints init_db.
Proof. split; apply NoDup_nil_2. Qed.

Lemma reachable_constraints s : reachable s → constraints (store s).
Proof.
  intros (order_by & es & <-).
  destruct (evolves_run order_by es init_sys) as [_ Hk]. apply Hk, constraints_init.
Qed.

Lemma run_app order_by es1 es2 s :
  (run order_by s (es1 ++ es2)).1 = (run order_by (run order_by s es1).1 es2).1.
Proof.
  revert s. induction es1 as [|e es1 IH]; intros s; cbn [run app]; [done|].
  destruct (step order_by s e) as [s' r]. specialize (IH s').
  destruct (run order_by s' (es1 ++ es2)), (run order_by s' es1). exact IH.
Qed.

End Evolution.

(** ** Code allocation *)

Section Allocation.

Implicit Types (d : db) (c : string) (z : Z) (draws : list Z).

Lemma pretty_N_char_digit (x : N) : Py.is_digit_char (pretty_N_char x) = true.
Proof. unfold pretty_N_char. by repeat case_match. Qed.

Lemma format_four_digit z :
  four_digit z →
  Py.format z
  = String (pretty_N_char ((Z.to_N z / 1000) mod 10)%N)
      (String (pretty_N_char ((Z.to_N z / 100) mod 10)%N)
         (String (pretty_N_char ((Z.to_N z / 10) mod 10)%N)
            (String (pretty_N_char (Z.to_N z mod 10)%N) ""))).
Proof.
  intros [Hlo Hhi]. destruct z as [|p|p]; [lia| |lia].
  unfold Py.format, pretty, pretty_Z, pretty, pretty_positive, pretty, pretty_N.
  cbn [Z.to_N]. set (x := N.pos p). assert (1000 ≤ x ≤ 9999)%N as Hx by lia.
  clearbody x. rewrite decide_False by lia.
  rewrite pretty_N_go_step by lia.
  rewrite pretty_N_go_step by (apply N.div_str_pos; lia).
  rewrite pretty_N_go_step by (rewrite N.Div0.div_div; apply N.div_str_pos; lia).
  rewrite pretty_N_go_step by (rewrite !N.Div0.div_div; apply N.div_str_pos; lia).
  rewrite !N.Div0.div_div. change (10 * (10 * (10 * 10)))%N with 10000%N.
  change (10 * (10 * 10))%N with 1000%N. change (10 * 10)%N with 100%N.
  rewrite (N.div_small x 10000) by lia. by rewrite pretty_N_go_0.
Qed.

Lemma format_four_digit_length z : four_digit z → String.length (Py.format z) = 4%nat.
Proof. intros Hz. by rewrite format_four_digit. Qed.

Lemma format_four_digit_isdigit z : four_digit z → Py.isdigit (Py.format z) = true.
Proof.
  intros Hz. rewrite format_four_digit by done.
  unfold Py.isdigit, Py.chars. cbn [list_ascii_of_string forallb].
  by rewrite !pretty_N_char_digit.
Qed.

Lemma generate_unique_code_Some d draws c :
  generate_unique_code d draws = Some c →
  select_test d c = None ∧ ∃ z, z ∈ draws ∧ c = Py.format z.
Proof.
  induction draws as [|z draws IH]; cbn [generate_unique_code]; [done|].
  destruct (select_test d (Py.format z)) eqn:Hsel.
  - intros (? & z' & ? & ?)%IH. split; [done|]. exists z'. split; [by right|done].
  - intros [= <-]. split; [done|]. exists z. split; [by left|done].
Qed.

Lemma generate_unique_code_hit d draws :
  (∃ z, z ∈ draws ∧ select_test d (Py.format z) = None) →
  is_Some (generate_unique_code d draws).
Proof.
  intros (z & Hz & Hfree). induction draws as [|z' draws IH]; [by apply elem_of_nil in Hz|].
  cbn [generate_unique_code]. destruct (select_test d (Py.format z')) eqn:Hsel; [|done].
  apply IH. apply elem_of_cons in Hz as [->|Hz]; [congruence|done].
Qed.

Lemma generate_unique_code_all_taken d draws :
  (∀ z, z ∈ draws → is_Some (select_test d (Py.format z))) →
  generate_unique_code d draws = None.
Proof.
  induction draws as [|z draws IH]; intros Htaken; cbn [generate_unique_code]; [done|].
  destruct (Htaken z) as [row ->]; [by left|]. apply IH. intros z' Hz'. apply Htaken. by right.
Qed.

End Allocation.

(** ** A handler that runs alone

    The handlers as the source writes them, top to bottom, are the schedules
    in which nothing else runs between their phases.  The engine's choice of
    order only shows in replies, never in the store. *)

Section Alone.

Implicit Types (d : db) (s : sys) (l : list pending).

Lemma step_engine ob1 ob2 s e : (step ob1 s e).1 = (step ob2 s e).1.
Proof.
  destruct e as [uid parts now|uid parts|uid n_str key_raw|uid c ans_raw now|parts|i draws now];
    cbn [step]; try done.
  destruct (inflight s !! i) as [p|]; [|done].
  by destruct p.
Qed.

Lemma run_engine ob1 ob2 es : ∀ s, (run ob1 s es).1 = (run ob2 s es).1.
Proof.
  induction es as [|e es IH]; intros s; cbn [run]; [done|].
  pose proof (step_engine ob1 ob2 s e) as Hstep.
  destruct (step ob1 s e) as [s1 r1], (step ob2 s e) as [s2 r2]. cbn in Hstep. subst s2.
  specialize (IH s1). by destruct (run ob1 s1 es), (run ob2 s1 es).
Qed.

Lemma reachable_init : reachable init_sys.
Proof. by exists id, []. Qed.

Lemma reachable_run ob s es : reachable s → reachable (run ob s es).1.
Proof.
  intros (ob' & es' & <-). exists ob, (es' ++ es).
  by rewrite run_app, (run_engine ob ob' es').
Qed.

Lemma inflight_lookup_last l (p : pending) : (l ++ [p]) !! length l = Some p.
Proof. by rewrite lookup_app_r, Nat.sub_diag. Qed.

Lemma inflight_delete_last l (p : pending) : delete (length l) (l ++ [p]) = l.
Proof. induction l as [|q l IH]; [done|]. cbn. f_equal. exact IH. Qed.

(** Unfolds the scheduler around the handlers' phases. *)
Ltac sched :=
  repeat (cbn [run step store inflight start resume fst snd option_list app];
          rewrite ?inflight_lookup_last, ?inflight_delete_last).

Lemma register_alone ob d l uid parts now :
  run ob (Sys d l) [Register uid parts now]
  = (Sys (cmd_register d uid parts now).1 l, [(cmd_register d uid parts now).2]).
Proof. sched. by destruct (cmd_register d uid parts now). Qed.

Lemma finish_alone ob d l uid parts :
  ∃ es, run ob (Sys d l) (Finish uid parts :: es)
        = (Sys (cmd_finish ob d uid parts).1 l, [(cmd_finish ob d uid parts).2]).
Proof.
  unfold cmd_finish. sched.
  destruct (finish_gate d uid parts) as [r|c]; sched.
  { by exists []. }
  destruct (finish_lookup d uid c) as [r|key] eqn:Hlook.
  { exists [Resume (length l) [] ""]. sched. rewrite Hlook. by sched. }
  exists [Resume (length l) [] ""; Resume (length l) [] ""].
  sched. rewrite Hlook. sched.
  by destruct (finish_write ob d c key).
Qed.

Lemma submit_alone ob d l uid c ans_raw now :
  ∃ es, run ob (Sys d l) (Submit uid c ans_raw now :: es)
        = (Sys (handle_submit d uid c ans_raw now).1 l, [(handle_submit d uid c ans_raw now).2]).
Proof.
  unfold handle_submit. sched.
  destruct (submit_check d c ans_raw) as [r|[answers key]]; sched.
  { by exists []. }
  exists [Resume (length l) [] ""]. sched.
  by destruct (submit_write d uid c answers key now).
Qed.

Lemma create_alone ob d l uid n_str key_raw draws now d' r :
  handle_create d uid n_str key_raw draws now = Some (d', r) →
  ∃ es, run ob (Sys d l) (Create uid n_str key_raw :: es) = (Sys d' l, [r]).
Proof.
  unfold handle_create. sched.
  destruct (create_check d uid n_str key_raw) as [r0|[n key]]; sched.
  { intros [= <- <-]. by exists []. }
  destruct (generate_unique_code d draws) as [c|] eqn:Hgen; [|done]. intros [= Hw].
  exists [Resume (length l) draws now; Resume (length l) [] ""].
  sched. rewrite Hgen. sched. by rewrite Hw.
Qed.

Lemma reachable_cmd_register d l uid parts now :
  reachable (Sys d l) → reachable (Sys (cmd_register d uid parts now).1 l).
Proof.
  intros Hr. pose proof (register_alone id d l uid parts now) as Hrun.
  apply (reachable_run id _ [Register uid parts now]) in Hr. by rewrite Hrun in Hr.
Qed.

Lemma reachable_cmd_finish ob d l uid parts :
  reachable (Sys d l) → reachable (Sys (cmd_finish ob d uid parts).1 l).
Proof.
  intros Hr. destruct (finish_alone ob d l uid parts) as [es Hrun].
  apply (reachable_run ob _ (Finish uid parts :: es)) in Hr. by rewrite Hrun in Hr.
Qed.

Lemma reachable_handle_submit d l uid c ans_raw now :
  reachable (Sys d l) → reachable (Sys (handle_submit d uid c ans_raw now).1 l).
Proof.
  intros Hr. destruct (submit_alone id d l uid c ans_raw now) as [es Hrun].
  apply (reachable_run id _ (Submit uid c ans_raw now :: es)) in Hr. by rewrite Hrun in Hr.
Qed.

Lemma reachable_handle_create d l uid n_str key_raw draws now d' r :
  handle_create d uid n_str key_raw draws now = Some (d', r) →
  reachable (Sys d l) → reachable (Sys d' l).
Proof.
  intros Hc Hr. destruct (create_alone id d l _ _ _ _ _ _ _ Hc) as [es Hrun].
  apply (reachable_run id _ (Create uid n_str key_raw :: es)) in Hr. by rewrite Hrun in Hr.
Qed.

End Alone.

(** ** Code uniqueness (C2) and allocation (C6) *)

Lemma codes_issued k :
  codes (author_db (issued k)) = (fun i => Py.format (1000 + Z.of_nat i)) <$> seq 0 k.
Proof. unfold codes, issued. cbn [tests author_db]. by rewrite <- list_fmap_compose. Qed.

Lemma issued_fresh k : select_test (author_db (issued k)) (Py.format (1000 + Z.of_nat k)) = None.
Proof.
  apply select_test_None. rewrite codes_issued.
  intros (i & Heq & Hi)%list_elem_of_fmap.
  apply (inj pretty) in Heq. apply elem_of_seq in Hi. lia.
Qed.

Lemma issued_taken k z :
  1000 ≤ z < 1000 + Z.of_nat k → is_Some (select_test (author_db (issued k)) (Py.format z)).
Proof.
  intros Hz. apply select_test_is_Some. rewrite codes_issued.
  apply list_elem_of_fmap. exists (Z.to_nat (z - 1000)). split.
  - f_equal. lia.
  - apply elem_of_seq. lia.
Qed.

Lemma issued_S k :
  issued (S k) = issued k ++ [TestRow (Py.format (1000 + Z.of_nat k)) 1 "a" 1 1 "2024-01-01T00:00:00"].
Proof. unfold issued. by rewrite seq_S, fmap_app. Qed.

Lemma create_next_issued k :
  handle_create (author_db (issued k)) 1 "1" "a" [1000 + Z.of_nat k] "2024-01-01T00:00:00"
  = Some (author_db (issued (S k)), TestCreated (Py.format (1000 + Z.of_nat k)) 1).
Proof.
  unfold handle_create.
  change (create_check (author_db (issued k)) 1 "1" "a") with (@Next (Z * string) (1, "a")).
  cbn [generate_unique_code]. rewrite issued_fresh.
  unfold create_write. rewrite insert_test_fresh.
  - by rewrite issued_S.
  - apply select_test_None, issued_fresh.
Qed.

Lemma issued_reachable k : reachable (Sys (author_db (issued k)) []).
Proof.
  induction k as [|k IH].
  - exists id, [Register 1 ["/register"; "author"] "2024-01-01T00:00:00"]. reflexivity.
  - eapply reachable_handle_create; [apply create_next_issued|done].
Qed.

Lemma create_check_Done d uid n_str key_raw c n :
  create_check d uid n_str key_raw ≠ Done (TestCreated c n).
Proof.
  unfold create_check. by repeat case_match.
Qed.

(** C2.  In every state the bot can reach, under any interleaving of its
    handlers, no two tests share a code.  A code the allocator returns is
    the code of no stored test, open or closed; the test [handle_create]
    stores under it keeps the codes distinct; an INSERT of a handler in
    flight whose code has been taken meanwhile is refused; and the codes of
    the tests stored so far stay in the table, in place, whatever runs
    later, so a closed test's code is never issued again. *)
Theorem test_codes_never_shared :
  ∀ s, reachable s →
    NoDup (codes (store s))
    ∧ (∀ draws c, generate_unique_code (store s) draws = Some c →
         ∀ t, t ∈ tests (store s) → code t ≠ c)
    ∧ (∀ uid n_str key_raw draws now d' c n,
         handle_create (store s) uid n_str key_raw draws now = Some (d', TestCreated c n) →
         (c ∉ codes (store s)) ∧ codes d' = codes (store s) ++ [c] ∧ NoDup (codes d'))
    ∧ (∀ uid n key c now,
         c ∈ codes (store s) →
         create_write (store s) uid n key c now = (store s, IntegrityError))
    ∧ (∀ order_by es,
         let s' := (run order_by s es).1 in
         codes (store s) `prefix_of` codes (store s') ∧ NoDup (codes (store s'))).
Proof.
  intros s Hs. pose proof (reachable_constraints s Hs) as [Hnd _].
  split; [done|]. split; [|split; [|split]].
  - intros draws c [Hnone _]%generate_unique_code_Some t Ht <-.
    apply select_test_None in Hnone. apply Hnone. unfold codes. by apply list_elem_of_fmap_2.
  - intros uid n_str key_raw draws now d' c n. unfold handle_create.
    destruct (create_check _ _ _ _) as [r|[n' key]] eqn:Hcheck.
    { intros [= _ ->]. by destruct (create_check_Done _ _ _ _ _ _ Hcheck). }
    destruct (generate_unique_code _ _) as [c'|]; [|done].
    unfold create_write. destruct (insert_test _ _ _ _ _ _) as [d1|] eqn:Hins; [|done].
    intros [= -> -> ->]. pose proof (evolves_insert_test _ _ _ _ _ _ _ Hins) as [_ Hk].
    apply insert_test_Some in Hins as [Hfresh ->]. split; [done|]. split.
    + unfold codes. cbn [tests]. by rewrite fmap_app.
    + apply Hk. by apply reachable_constraints.
  - intros uid n key c now Hc. unfold create_write, insert_test.
    apply existsb_code in Hc. unfold codes in Hc. by rewrite Hc.
  - intros order_by es s'. destruct (evolves_run order_by es s) as [(Hpre & _) _].
    split; [done|]. by apply (reachable_constraints s'), reachable_run.
Qed.

Lemma test_codes_never_shared_witness :
  reachable (Sys (author_db (issued 2)) [])
  ∧ NoDup (codes (author_db (issued 2))).
Proof.
  split; [apply issued_reachable|].
  exact (proj1 (test_codes_never_shared (Sys (author_db (issued 2)) []) (issued_reachable 2))).
Defined.

(** C6, as the code has it.  With draws from 1000..9999 the loop returns the
    text of the first draw that is the code of no stored test: an unused
    code of four digits.  It returns as soon as such a draw comes.  When
    every one of the 9000 values is the code of a stored test no draw ends
    the loop: it runs on, and nothing in it reports that the codes are used
    up. *)
Theorem generate_unique_code_loop :
  ∀ d draws,
    Forall four_digit draws →
    (∀ c, generate_unique_code d draws = Some c →
       select_test d c = None
       ∧ String.length c = 4%nat ∧ Py.isdigit c = true
       ∧ ∃ z, z ∈ draws ∧ four_digit z ∧ c = Py.format z)
    ∧ ((∃ z, z ∈ draws ∧ select_test d (Py.format z) = None) →
       is_Some (generate_unique_code d draws))
    ∧ ((∀ z, four_digit z → is_Some (select_test d (Py.format z))) →
       generate_unique_code d draws = None).
Proof.
  intros d draws Hdraws. rewrite Forall_forall in Hdraws. split; [|split].
  - intros c (Hfree & z & Hz & ->)%generate_unique_code_Some.
    split; [done|]. split; [by apply format_four_digit_length, Hdraws|].
    split; [by apply format_four_digit_isdigit, Hdraws|].
    exists z. split; [done|]. split; [by apply Hdraws|done].
  - apply generate_unique_code_hit.
  - intros Hall. apply generate_unique_code_all_taken.
    intros z Hz. by apply Hall, Hdraws.
Qed.

Lemma generate_unique_code_loop_witness :
  Forall four_digit [1000; 1001; 1002]
  ∧ generate_unique_code (author_db (issued 2)) [1000; 1001; 1002] = Some "1002"
  ∧ select_test (author_db (issued 2)) "1002" = None.
Proof.
  assert (Forall four_digit [1000; 1001; 1002]) as Hd.
  { repeat constructor; unfold four_digit; lia. }
  split; [exact Hd|]. split; [reflexivity|].
  exact (proj1 (proj1 (generate_unique_code_loop (author_db (issued 2)) _ Hd) "1002" eq_refl)).
Defined.

(** C6 as stated fails on the store in which all 9000 codes are issued, a
    store the bot reaches by 9000 creations: whatever is drawn, the
    allocation never returns, neither a code nor a failure. *)
Lemma generate_unique_code_exhausted :
  reachable (Sys exhausted_db [])
  ∧ (∀ z, four_digit z → is_Some (select_test exhausted_db (Py.format z)))
  ∧ ¬ ∃ draws, Forall four_digit draws ∧ is_Some (generate_unique_code exhausted_db draws).
Proof.
  split; [apply issued_reachable|].
  assert (∀ z, four_digit z → is_Some (select_test exhausted_db (Py.format z))) as Hall.
  { intros z [Hlo Hhi]. apply issued_taken. lia. }
  split; [exact Hall|].
  intros (draws & Hdraws & Hsome). rewrite Forall_forall in Hdraws.
  rewrite (generate_unique_code_all_taken exhausted_db draws) in Hsome.
  - by destruct Hsome.
  - intros z Hz. by apply Hall, Hdraws.
Qed.

(** ** Exactly-once submission (C1) *)

Lemma NoDup_fmap_eq {A B} (f : A → B) (l : list A) x y :
  NoDup (f <$> l) → x ∈ l → y ∈ l → f x = f y → x = y.
Proof.
  induction l as [|a l IH]; [by intros _ ?%elem_of_nil|].
  rewrite fmap_cons, NoDup_cons. intros [Ha Hnd] Hx Hy Hf.
  apply elem_of_cons in Hx as [->|Hx], Hy as [->|Hy].
  - done.
  - destruct Ha. rewrite Hf. by apply list_elem_of_fmap_2.
  - destruct Ha. rewrite <- Hf. by apply list_elem_of_fmap_2.
  - by apply IH.
Qed.

Lemma submit_check_Done d c ans_raw sc n :
  submit_check d c ans_raw ≠ Done (Accepted sc n).
Proof. unfold submit_check. by repeat case_match. Qed.

Lemma submit_write_duplicate d uid c answers key now :
  (c, uid) ∈ pairs d →
  submit_write d uid c answers key now = (d, DuplicateSubmission).
Proof.
  intros Hin. unfold submit_write.
  by rewrite (proj2 (insert_submission_None d (SubmissionRow c uid answers _ now)) Hin).
Qed.

Lemma submit_write_Accepted d uid c answers key now d' sc n :
  submit_write d uid c answers key now = (d', Accepted sc n) →
  ((c, uid) ∉ pairs d)
  ∧ sc = score_answers key answers
  ∧ d' = Db (users d) (tests d) (submissions d ++ [SubmissionRow c uid answers sc now]).
Proof.
  unfold submit_write. destruct (insert_submission _ _) as [d1|] eqn:Hins; [|done].
  intros [= -> <- _]. by apply insert_submission_Some in Hins as [? ->].
Qed.

Lemma one_answer_reachable : reachable (Sys one_answer_db []).
Proof. apply reachable_handle_submit, issued_reachable. Qed.

(** C1.  In every reachable state there is at most one submission per test
    code and participant.  An accepted submit adds one row for a pair that
    had none.  Once a row for a pair is stored then, whatever runs in
    between, every later attempt to insert for that pair fails with
    DuplicateSubmission, every later [handle_submit] for it leaves the
    store as it is and is not accepted (it is DuplicateSubmission as soon
    as the checks before the insert pass), and the row found for the pair
    is still the first one, with its answers and its score. *)
Theorem submission_recorded_once :
  ∀ s, reachable s →
    NoDup (pairs (store s))
    ∧ (∀ uid c ans_raw now d' sc n,
         handle_submit (store s) uid c ans_raw now = (d', Accepted sc n) →
         ((c, uid) ∉ pairs (store s))
         ∧ submissions d'
           = submissions (store s) ++ [SubmissionRow c uid (norm ans_raw) sc now])
    ∧ (∀ row, row ∈ submissions (store s) →
       ∀ order_by es,
         let d' := store (run order_by s es).1 in
         (∀ answers key now,
            submit_write d' (user_id row) (test_code row) answers key now
            = (d', DuplicateSubmission))
         ∧ (∀ ans_raw now,
              let res := handle_submit d' (user_id row) (test_code row) ans_raw now in
              res.1 = d'
              ∧ (∀ sc n, res.2 ≠ Accepted sc n)
              ∧ (∀ ak, submit_check d' (test_code row) ans_raw = Next ak →
                       res.2 = DuplicateSubmission))
         ∧ (∀ row', row' ∈ submissions d' → pair_of row' = pair_of row → row' = row)).
Proof.
  intros s Hs. pose proof (reachable_constraints s Hs) as [_ Hnd].
  split; [done|]. split.
  - intros uid c ans_raw now d' sc n. unfold handle_submit.
    destruct (submit_check _ _ _) as [r|[answers key]] eqn:Hcheck.
    { intros [= _ ->]. by destruct (submit_check_Done _ _ _ _ _ Hcheck). }
    intros (Hfresh & -> & ->)%submit_write_Accepted. split; [done|].
    cbn [submissions]. do 3 f_equal.
    revert Hcheck. unfold submit_check. repeat case_match; try done. by intros [= <- _].
  - intros row Hrow order_by es d'.
    destruct (evolves_run order_by es s) as [(_ & Hpre & _) _]. fold d' in Hpre.
    assert (row ∈ submissions d') as Hrow'.
    { destruct Hpre as [more ->]. apply elem_of_app. by left. }
    assert ((test_code row, user_id row) ∈ pairs d') as Hpair.
    { unfold pairs. by apply (list_elem_of_fmap_2 pair_of). }
    split; [|split].
    + intros answers key now. by apply submit_write_duplicate.
    + intros ans_raw now. unfold handle_submit.
      destruct (submit_check d' (test_code row) ans_raw) as [r|[answers key]] eqn:Hcheck.
      * cbn. split; [done|]. split; [|done].
        intros sc n ->. by destruct (submit_check_Done _ _ _ _ _ Hcheck).
      * rewrite submit_write_duplicate by done. cbn. by repeat split.
    + intros row' Hin Heq.
      assert (reachable (run order_by s es).1) as Hr by by apply reachable_run.
      apply reachable_constraints in Hr as [_ Hnd'].
      by apply (NoDup_fmap_eq pair_of (submissions d')).
Qed.

Lemma submission_recorded_once_witness :
  reachable (Sys one_answer_db [])
  ∧ handle_submit one_answer_db 2 "1000" "b" "2024-01-01T00:00:03" = (one_answer_db, DuplicateSubmission).
Proof.
  split; [apply one_answer_reachable|].
  pose proof (submission_recorded_once _ one_answer_reachable) as (_ & _ & Hrow).
  destruct (Hrow (SubmissionRow "1000" 2 "a" 1 "2024-01-01T00:00:02") ltac:(by left) id [])
    as (_ & Hsubmit & _).
  destruct (Hsubmit "b" "2024-01-01T00:00:03") as (Hstore & _ & Hdup).
  exact (eq_trans (surjective_pairing (handle_submit one_answer_db 2 "1000" "b" "2024-01-01T00:00:03"))
                  (f_equal2 pair Hstore (Hdup ("b", "a") eq_refl))).
Defined.

(** ** Closing a test (C4) *)

Lemma closed_stays_closed order_by s es c row :
  select_test (store s) c = Some row → is_open row = 0 →
  select_test (store (run order_by s es).1) c = Some row.
Proof.
  intros Hrow Hz. destruct (evolves_run order_by es s) as [(_ & _ & Hclosed) _].
  by apply Hclosed.
Qed.

Lemma select_test_closed d c row :
  select_test d c = Some row → select_test (close_test d c) c = Some (closed_row row).
Proof.
  intros Hrow. rewrite select_test_close_test, Hrow. cbn.
  apply select_test_Some in Hrow as [_ ->]. by rewrite String.eqb_refl.
Qed.

Lemma cmd_finish_on_closed order_by d uid parts c row :
  parts !! 1%nat = Some c →
  select_test d c = Some row → is_open row = 0 →
  let res := cmd_finish order_by d uid parts in
  res.1 = d
  ∧ (res.2 = AuthorOnly ∨ res.2 = FinishUsage ∨ res.2 = NotOwner ∨ res.2 = AlreadyClosed)
  ∧ (is_author (get_role d uid) = true → Py.isdigit c = true → owner_id row = uid →
     res.2 = AlreadyClosed).
Proof.
  intros Hparts Hrow Hz. unfold cmd_finish, finish_gate, finish_lookup.
  rewrite Hparts.
  destruct (is_author (get_role d uid)); cbn [negb];
    [destruct (Py.isdigit c);
       [rewrite Hrow, Hz; destruct (Z.eqb_spec (owner_id row) uid)|]|];
    cbn; (split; [done|split; [by auto 6|by intros]]).
Qed.

(** C4, as the code has it.  [cmd_finish] first turns away a caller whose
    stored role is not author, whatever the code.  For an author and a
    numeric code it then checks, in this order, that a test with the code
    exists (TestNotFound), that the caller owns it (NotOwner) and that it is
    open (AlreadyClosed).  On success the test is closed; from then on,
    whatever runs, it stays closed and the store is changed by no further
    [cmd_finish] on the code, which is answered AlreadyClosed when it comes
    from the owner with a numeric code and the author role. *)
Theorem cmd_finish_checks :
  ∀ order_by d uid parts,
    let res := cmd_finish order_by d uid parts in
    (is_author (get_role d uid) = false → res = (d, AuthorOnly))
    ∧ (is_author (get_role d uid) = true →
       ∀ c, parts !! 1%nat = Some c → Py.isdigit c = true →
         (select_test d c = None → res = (d, TestNotFound))
         ∧ (∀ row, select_test d c = Some row →
              (owner_id row ≠ uid → res = (d, NotOwner))
              ∧ (owner_id row = uid → is_open row = 0 → res = (d, AlreadyClosed))
              ∧ (owner_id row = uid → is_open row ≠ 0 →
                   res.1 = close_test d c
                   ∧ select_test res.1 c = Some (closed_row row)
                   ∧ is_open (closed_row row) = 0
                   ∧ ∀ l es,
                       let d' := store (run order_by (Sys res.1 l) es).1 in
                       select_test d' c = Some (closed_row row)
                       ∧ ∀ uid' parts', parts' !! 1%nat = Some c →
                           let res' := cmd_finish order_by d' uid' parts' in
                           res'.1 = d'
                           ∧ (res'.2 = AuthorOnly ∨ res'.2 = FinishUsage
                              ∨ res'.2 = NotOwner ∨ res'.2 = AlreadyClosed)
                           ∧ (uid' = uid → is_author (get_role d' uid) = true →
                              res'.2 = AlreadyClosed)))).
Proof.
  intros order_by d uid parts res. split.
  { intros Hna. subst res. unfold cmd_finish, finish_gate. by rewrite Hna. }
  intros Ha c Hparts Hdigit.
  assert (res = match finish_lookup d uid c with
                | Done r => (d, r)
                | Next key => finish_write order_by d c key
                end) as Hres.
  { subst res. unfold cmd_finish, finish_gate. by rewrite Ha, Hparts, Hdigit. }
  clearbody res. subst res. unfold finish_lookup. split.
  { by intros ->. }
  intros row Hrow. rewrite Hrow. split; [|split].
  - intros Hne. by destruct (Z.eqb_spec (owner_id row) uid).
  - intros <- ->. by rewrite Z.eqb_refl.
  - intros <- Hopen. rewrite Z.eqb_refl. cbn [negb].
    destruct (Z.eqb_spec (is_open row) 0) as [|_]; [done|]. cbn [finish_write fst].
    pose proof (select_test_closed d c row Hrow) as Hclosed.
    split; [reflexivity|]. split; [exact Hclosed|]. split; [reflexivity|].
    intros l es. set (d' := store (run order_by (Sys (close_test d c) l) es).1).
    assert (select_test d' c = Some (closed_row row)) as Hrow'.
    { by apply (closed_stays_closed order_by (Sys (close_test d c) l) es). }
    split; [exact Hrow'|]. intros uid' parts' Hparts'.
    destruct (cmd_finish_on_closed order_by d' uid' parts' c (closed_row row)
                Hparts' Hrow' eq_refl) as (Hstore & Hreply & Howner).
    split; [exact Hstore|]. split; [exact Hreply|].
    intros -> Hauthor. by apply Howner.
Qed.

Lemma cmd_finish_checks_witness :
  is_author (get_role one_test_db 1) = true
  ∧ (cmd_finish rank_by_insertion one_test_db 1 ["/finish"; "1000"]).1
    = close_test one_test_db "1000"
  ∧ cmd_finish rank_by_insertion (close_test one_test_db "1000") 1 ["/finish"; "1000"]
    = (close_test one_test_db "1000", AlreadyClosed).
Proof.
  split; [reflexivity|].
  pose proof (cmd_finish_checks rank_by_insertion one_test_db 1 ["/finish"; "1000"])
    as [_ Hauthor].
  destruct (Hauthor eq_refl "1000" eq_refl eq_refl) as [_ Hrow].
  destruct (Hrow (TestRow "1000" 1 "a" 1 1 "2024-01-01T00:00:00") eq_refl) as (_ & _ & Hclose).
  destruct (Hclose eq_refl ltac:(done)) as (Hstore & _ & _ & Hlater).
  split; [exact Hstore|].
  destruct (Hlater [] []) as [_ Hagain].
  destruct (Hagain 1 ["/finish"; "1000"] eq_refl) as (H1 & _ & H2).
  exact (eq_trans (surjective_pairing _) (f_equal2 pair H1 (H2 eq_refl eq_refl))).
Defined.

(** C4 as stated fails: the check that the test exists is not the first.
    A caller without the author role is told that the command is for
    authors only, both for a code no test has and for an open test of
    somebody else; and the owner of an open test who has since registered
    as participant cannot close it, though the test exists, is theirs and
    is open. *)
Lemma cmd_finish_role_gate_first :
  (select_test init_db "1234" = None
   ∧ cmd_finish rank_by_insertion init_db 7 ["/finish"; "1234"] = (init_db, AuthorOnly)
   ∧ AuthorOnly ≠ TestNotFound)
  ∧ (select_test one_test_db "1000" = Some (TestRow "1000" 1 "a" 1 1 "2024-01-01T00:00:00")
     ∧ cmd_finish rank_by_insertion one_test_db 2 ["/finish"; "1000"]
       = (one_test_db, AuthorOnly)
     ∧ AuthorOnly ≠ NotOwner)
  ∧ (let d := (cmd_register one_test_db 1 ["/register"; "participant"]
                            "2024-01-01T00:00:05").1 in
     select_test d "1000" = Some (TestRow "1000" 1 "a" 1 1 "2024-01-01T00:00:00")
     ∧ cmd_finish rank_by_insertion d 1 ["/finish"; "1000"] = (d, AuthorOnly)).
Proof. by repeat split. Qed.

(** ** The checks of a submission *)

Section Letters.

Variable P : ascii → bool.

Lemma chars_rev_app s1 s2 :
  Py.chars (String.rev_app s1 s2) = rev_append (Py.chars s1) (Py.chars s2).
Proof.
  revert s2. induction s1 as [|c s1 IH]; intros s2; [done|]. cbn. by rewrite IH.
Qed.

Lemma forallb_rev s :
  forallb P (Py.chars s) = true → forallb P (Py.chars (String.rev s)) = true.
Proof.
  unfold String.rev. rewrite chars_rev_app, rev_append_rev, app_nil_r.
  rewrite !forallb_forall. intros H c Hc. apply H. by apply in_rev.
Qed.

Lemma forallb_lstrip s :
  forallb P (Py.chars s) = true → forallb P (Py.chars (Py.lstrip s)) = true.
Proof.
  induction s as [|c s IH]; [done|]. cbn [Py.lstrip].
  destruct (Py.isspace c); [|done]. cbn. intros [_ ?]%andb_true_iff. by apply IH.
Qed.

Lemma forallb_strip s :
  forallb P (Py.chars s) = true → forallb P (Py.chars (Py.strip s)) = true.
Proof.
  intros H. unfold Py.strip, Py.rstrip.
  by apply forallb_rev, forallb_lstrip, forallb_rev, forallb_lstrip.
Qed.

End Letters.

Lemma chars_lower s : Py.chars (Py.lower s) = map Py.lower_char (Py.chars s).
Proof.
  unfold Py.chars. induction s as [|c s IH]; [done|].
  cbn [Py.lower list_ascii_of_string map]. by rewrite IH.
Qed.

(** What the patterns capture passes the check of the letters: on a message
    dispatched through [SUBMIT_RE] the reply InvalidAnswers cannot occur. *)
Lemma choice_letters_norm s : choice_letters s = true → Py.all_abcd (norm s) = true.
Proof.
  intros H%forallb_strip. unfold Py.all_abcd, norm.
  rewrite chars_lower. rewrite forallb_forall in H |- *.
  intros c' (c & <- & Hc)%in_map_iff. specialize (H c Hc). cbn in H.
  repeat (apply orb_true_iff in H as [->%Ascii.eqb_eq|H]; [reflexivity|]).
  done.
Qed.

Lemma submit_check_choice_letters d c ans_raw :
  choice_letters ans_raw = true → submit_check d c ans_raw ≠ Done InvalidAnswers.
Proof.
  intros H%choice_letters_norm. unfold submit_check. rewrite H. cbn [negb].
  by repeat case_match.
Qed.

(** The checks of [handle_submit] as the source orders them: the letters
    of the answers, before it looks at the store; then that a test with the
    code exists, that it is open, and that the answers are as long as the
    key.  The reply is that of the first check that fails; when none fails
    the insert decides between DuplicateSubmission and an accepted
    submission with its score. *)
Lemma handle_submit_checks :
  ∀ d uid c ans_raw now,
    let answers := norm ans_raw in
    let res := handle_submit d uid c ans_raw now in
    (Py.all_abcd answers = false → res = (d, InvalidAnswers))
    ∧ (Py.all_abcd answers = true →
       (select_test d c = None → res = (d, TestNotFound))
       ∧ (∀ row, select_test d c = Some row →
            (is_open row = 0 → res = (d, TestClosed))
            ∧ (is_open row ≠ 0 → Py.len answers ≠ Py.len (answer_key row) →
               res = (d, LengthMismatch (Py.len answers) (Py.len (answer_key row))))
            ∧ (is_open row ≠ 0 → Py.len answers = Py.len (answer_key row) →
               res = submit_write d uid c answers (answer_key row) now
               ∧ (res = (d, DuplicateSubmission)
                  ∨ res.2 = Accepted (score_answers (answer_key row) answers)
                                     (Py.len answers))))).
Proof.
  intros d uid c ans_raw now answers res. subst res answers.
  unfold handle_submit, submit_check. split.
  { by intros ->. }
  intros ->. cbn [negb]. split.
  { by intros ->. }
  intros row ->. split; [|split].
  - by intros ->.
  - intros Hopen Hlen.
    destruct (Z.eqb_spec (is_open row) 0); [done|].
    by destruct (Z.eqb_spec (Py.len (norm ans_raw)) (Py.len (answer_key row))).
  - intros Hopen Hlen.
    destruct (Z.eqb_spec (is_open row) 0); [done|].
    destruct (Z.eqb_spec (Py.len (norm ans_raw)) (Py.len (answer_key row))); [|done].
    cbn [negb]. split; [done|]. unfold submit_write.
    destruct (insert_submission _ _); [by right|by left].
Qed.

(** ** Creating a test (C7) *)

(** C7.  [handle_create] refuses a caller whose role is not author with
    NotAnAuthor; an author whose key has a character outside a..d with
    InvalidAnswerKey; an author whose valid key is not as long as the
    declared number of questions with the length mismatch.  The three
    replies exclude one another, the first failing check in this order
    giving the reply.  When no check fails and the allocation returns a
    code, the code is that of no stored test and the test is stored under
    it, open, with the caller as owner; the allocation does return when
    one of the draws is unused.  So an author's [5 +abcde] is an invalid
    key and [5 +abcd] a length mismatch. *)
Theorem handle_create_checks :
  ∀ d uid n_str key_raw n draws now,
    Py.int n_str = Some n →
    let key := norm key_raw in
    let res := handle_create d uid n_str key_raw draws now in
    (is_author (get_role d uid) = false → res = Some (d, NotAnAuthor))
    ∧ (is_author (get_role d uid) = true →
       (Py.all_abcd key = false → res = Some (d, InvalidAnswerKey))
       ∧ (Py.all_abcd key = true → Py.len key ≠ n →
          res = Some (d, KeyLengthMismatch (Py.len key) n))
       ∧ (Py.all_abcd key = true → Py.len key = n →
          ∀ c, generate_unique_code d draws = Some c →
            (c ∉ codes d)
            ∧ res = Some (Db (users d) (tests d ++ [TestRow c uid key n 1 now])
                             (submissions d),
                          TestCreated c n)
            ∧ ∀ d', res = Some (d', TestCreated c n) →
                select_test d' c = Some (TestRow c uid key n 1 now))
       ∧ (Py.all_abcd key = true → Py.len key = n →
          (∃ z, z ∈ draws ∧ select_test d (Py.format z) = None) →
          ∃ c d', res = Some (d', TestCreated c n))
       ∧ handle_create d uid "5" "abcde" draws now = Some (d, InvalidAnswerKey)
       ∧ handle_create d uid "5" "abcd" draws now = Some (d, KeyLengthMismatch 4 5)).
Proof.
  intros d uid n_str key_raw n draws now Hn key res. subst res key.
  unfold handle_create, create_check. split.
  { by intros ->. }
  intros ->. cbn [negb]. rewrite Hn. split; [|split; [|split; [|split; [|split]]]].
  - by intros ->.
  - intros -> Hlen. cbn [negb].
    by destruct (Z.eqb_spec (Py.len (norm key_raw)) n).
  - intros -> Hlen c Hgen. cbn [negb].
    destruct (Z.eqb_spec (Py.len (norm key_raw)) n); [|done]. cbn [negb].
    rewrite Hgen. apply generate_unique_code_Some in Hgen as [Hfree _].
    apply select_test_None in Hfree. unfold create_write.
    rewrite insert_test_fresh by done. split; [done|]. split; [done|].
    intros d' [= <-]. unfold select_test. cbn [tests].
    rewrite find_code_app. apply find_code_None in Hfree. rewrite Hfree.
    cbn. by rewrite String.eqb_refl.
  - intros -> Hlen Hdraw. cbn [negb].
    destruct (Z.eqb_spec (Py.len (norm key_raw)) n); [|done]. cbn [negb].
    destruct (generate_unique_code_hit d draws Hdraw) as [c Hgen]. rewrite Hgen.
    apply generate_unique_code_Some in Hgen as [Hfree _].
    apply select_test_None in Hfree. unfold create_write.
    rewrite insert_test_fresh by done. by eexists _, _.
  - done.
  - done.
Qed.

Lemma handle_create_checks_witness :
  Py.int "1" = Some 1
  ∧ handle_create one_test_db 1 "1" " D" [1000; 1001] "2024-01-01T00:00:03"
    = Some (Db (users one_test_db)
               (tests one_test_db ++ [TestRow "1001" 1 "d" 1 1 "2024-01-01T00:00:03"])
               (submissions one_test_db),
            TestCreated "1001" 1).
Proof.
  split; [reflexivity|].
  pose proof (handle_create_checks one_test_db 1 "1" " D" 1 [1000; 1001] "2024-01-01T00:00:03" eq_refl)
    as [_ Hauthor].
  destruct (Hauthor eq_refl) as (_ & _ & Hok & _).
  exact (proj1 (proj2 (Hok eq_refl eq_refl "1001" eq_refl))).
Defined.

(** ** Ranking *)

Section Ranking.

Implicit Types (a b : submission_row) (rows out : list submission_row).

#[global] Instance rank_le_total : Total rank_le.
Proof.
  intros a b. unfold rank_le.
  destruct (Z.lt_trichotomy (score a) (score b)) as [?|[?|?]]; [by auto|..|by auto].
  destruct (total String.le (submitted_at a) (submitted_at b)); [by auto|].
  right. right. by split.
Qed.

#[global] Instance rank_le_trans : Transitive rank_le.
Proof.
  intros a b c [?|[? ?]] [?|[? ?]]; unfold rank_le.
  - left. lia.
  - left. lia.
  - left. lia.
  - right. split; [lia|]. by etrans.
Qed.

Lemma rank_le_keys a b :
  rank_le a b →
  score b ≤ score a ∧ (score a = score b → String.le (submitted_at a) (submitted_at b)).
Proof. intros [?|[? ?]]; split; [lia|lia|lia|done]. Qed.

Lemma rank_le_tie a b :
  rank_le a b → rank_le b a → score a = score b ∧ submitted_at a = submitted_at b.
Proof.
  intros [?|[? ?]] [?|[? ?]]; try lia. split; [done|]. by apply (anti_symm String.le).
Qed.

Lemma StronglySorted_lookup_lt {A} (R : relation A) (l : list A) :
  StronglySorted R l →
  ∀ i j x y, (i < j)%nat → l !! i = Some x → l !! j = Some y → R x y.
Proof.
  induction 1 as [|z l Hl IH Hz]; intros i j x y Hij Hi Hj; [done|].
  destruct j as [|j]; [lia|]. cbn in Hj. destruct i as [|i]; cbn in Hi.
  - injection Hi as ->. rewrite Forall_forall in Hz. apply Hz.
    by eapply list_elem_of_lookup_2.
  - apply (IH i j); [lia|done..].
Qed.

Lemma order_by_ok_spec rows out :
  order_by_ok rows out = true ↔ out ≡ₚ rows ∧ Sorted rank_le out.
Proof.
  unfold order_by_ok. by rewrite andb_true_iff, !bool_decide_eq_true.
Qed.

Lemma order_by_ok_unique rows out out' :
  (∀ a b, a ∈ rows → b ∈ rows →
          score a = score b → submitted_at a = submitted_at b → a = b) →
  order_by_ok rows out = true → order_by_ok rows out' = true → out' = out.
Proof.
  intros Hties [Hp Hs]%order_by_ok_spec [Hp' Hs']%order_by_ok_spec.
  apply (Sorted_unique_strong rank_le); [|done|done|by rewrite Hp, Hp'].
  intros a b Ha Hb Hab Hba. destruct (rank_le_tie a b Hab Hba).
  apply Hties; [by rewrite <- Hp'|by rewrite <- Hp|done..].
Qed.

Lemma rank_by_insertion_ok rows : order_by_ok rows (rank_by_insertion rows) = true.
Proof.
  apply order_by_ok_spec. split.
  - apply merge_sort_Permutation.
  - apply (Sorted_merge_sort rank_le).
Qed.

End Ranking.

Lemma example_rows_stored :
  reachable example_sys ∧ select_submissions (store example_sys) "1000" = example_rows.
Proof. split; [by exists rank_by_insertion, example_schedule|reflexivity]. Qed.

Lemma example_rows_no_tie a b :
  a ∈ example_rows → b ∈ example_rows →
  score a = score b → submitted_at a = submitted_at b → a = b.
Proof.
  unfold example_rows. rewrite !elem_of_cons, !elem_of_nil.
  intros [->|[->|[->|[]]]] [->|[->|[->|[]]]]; cbn; try done.
Qed.

(** ** A submit that races with the close (C9) *)

Lemma elem_of_select_submissions d c x :
  x ∈ select_submissions d c ↔ x ∈ submissions d ∧ test_code x = c.
Proof.
  unfold select_submissions. rewrite !list_elem_of_In, filter_In.
  by destruct (String.eqb_spec (test_code x) c); intuition.
Qed.

Lemma board_line_of k key rows x :
  x ∈ rows → (length rows ≤ k)%nat →
  ∃ line, line ∈ board k key rows ∧ line_user line = user_id x ∧ line_score line = score x.
Proof.
  intros [i Hi]%list_elem_of_lookup_1 Hlen. unfold board.
  rewrite take_ge by done.
  exists (BoardLine (Z.of_nat i + 1) (user_id x) (score x) (Py.len key)).
  split; [|done]. eapply list_elem_of_lookup_2. by rewrite list_lookup_imap, Hi.
Qed.

Lemma submit_check_on_closed d c row ans_raw :
  select_test d c = Some row → is_open row = 0 →
  submit_check d c ans_raw = Done TestClosed ∨ submit_check d c ans_raw = Done InvalidAnswers.
Proof.
  intros Hrow Hz. unfold submit_check. rewrite Hrow, Hz.
  destruct (Py.all_abcd (norm ans_raw)); by auto.
Qed.

(** C9, as the code has it.  The UPDATE that closes the test and the SELECT
    of its submissions are one transaction: the leaderboard is made from
    exactly the submissions of the test stored at that instant, so a
    submission inserted before the close is in it (on the board, when the
    board holds them all).  Once the close has committed the test stays
    closed, and a [handle_submit] whose check of the test runs from then on
    is answered TestClosed (InvalidAnswers when its letters are wrong) and
    stores nothing. *)
Theorem finish_snapshot_then_closed :
  ∀ order_by d c key,
    (∀ rows, order_by_ok rows (order_by rows) = true) →
    let res := finish_write order_by d c key in
    let snapshot := order_by (select_submissions d c) in
    res.1 = close_test d c
    ∧ res.2 = match snapshot with
              | [] => ClosedNoParticipants c
              | _ => ClosedWithResults c (board 10 key snapshot)
              end
    ∧ (∀ x, x ∈ snapshot ↔ x ∈ submissions d ∧ test_code x = c)
    ∧ (∀ x, x ∈ submissions d → test_code x = c → (length snapshot ≤ 10)%nat →
         ∃ lines line, res.2 = ClosedWithResults c lines ∧ line ∈ lines
                       ∧ line_user line = user_id x ∧ line_score line = score x)
    ∧ (∀ row, select_test d c = Some row →
       ∀ l es uid ans_raw now,
         let d' := store (run order_by (Sys res.1 l) es).1 in
         (submit_check d' c ans_raw = Done TestClosed
          ∨ submit_check d' c ans_raw = Done InvalidAnswers)
         ∧ (handle_submit d' uid c ans_raw now = (d', TestClosed)
            ∨ handle_submit d' uid c ans_raw now = (d', InvalidAnswers))).
Proof.
  intros order_by d c key Hengine res snapshot.
  assert (∀ x, x ∈ snapshot ↔ x ∈ submissions d ∧ test_code x = c) as Hsnap.
  { intros x. rewrite <- elem_of_select_submissions.
    destruct (proj1 (order_by_ok_spec _ _) (Hengine (select_submissions d c))) as [Hp _].
    subst snapshot. by rewrite Hp. }
  split; [reflexivity|]. split; [reflexivity|]. split; [exact Hsnap|]. split.
  - intros x Hx Hc Hlen. assert (x ∈ snapshot) as Hin by by apply Hsnap.
    destruct (board_line_of 10 key snapshot x Hin Hlen) as (line & ? & ? & ?).
    exists (board 10 key snapshot), line. split; [|done].
    subst res. unfold finish_write. cbn [snd].
    change (select_submissions (close_test d c) c) with (select_submissions d c).
    fold snapshot. clearbody snapshot.
    destruct snapshot; [by apply elem_of_nil in Hin|done].
  - intros row Hrow l es uid ans_raw now.
    set (d' := store (run order_by (Sys res.1 l) es).1).
    assert (select_test d' c = Some (closed_row row)) as Hrow'.
    { apply (closed_stays_closed order_by (Sys (close_test d c) l) es); [|done].
      by apply select_test_closed. }
    pose proof (submit_check_on_closed d' c (closed_row row) ans_raw Hrow' eq_refl) as Hcheck.
    split; [exact Hcheck|]. unfold handle_submit.
    destruct Hcheck as [-> | ->]; by auto.
Qed.

Lemma finish_snapshot_then_closed_witness :
  (∀ rows, order_by_ok rows (rank_by_insertion rows) = true)
  ∧ select_test one_answer_db "1000" = Some (TestRow "1000" 1 "a" 1 1 "2024-01-01T00:00:00")
  ∧ (handle_submit (close_test one_answer_db "1000") 3 "1000" "a" "2024-01-01T00:00:04"
       = (close_test one_answer_db "1000", TestClosed)
     ∨ handle_submit (close_test one_answer_db "1000") 3 "1000" "a" "2024-01-01T00:00:04"
       = (close_test one_answer_db "1000", InvalidAnswers)).
Proof.
  split; [exact rank_by_insertion_ok|]. split; [reflexivity|].
  pose proof (finish_snapshot_then_closed rank_by_insertion one_answer_db "1000" "a"
                rank_by_insertion_ok) as (_ & _ & _ & _ & Hlate).
  exact (proj2 (Hlate _ eq_refl [] [] 3 "a" "2024-01-01T00:00:04")).
Defined.

(** C9 as stated fails under the interleaving [race_schedule]: the submit
    finds the test open, the owner's close then commits and reports that
    nobody took part, and the submit's INSERT still goes through.  The
    submission is accepted after the close and is missing from the closing
    leaderboard. *)
Lemma submit_accepted_after_close :
  run rank_by_insertion init_sys race_schedule
  = (Sys race_db [],
     [RoleSet "author"; TestCreated "1000" 2; ClosedNoParticipants "1000"; Accepted 2 2])
  ∧ select_test race_db "1000" = Some (TestRow "1000" 9 "ab" 2 0 "2024-01-01T00:00:01")
  ∧ select_submissions race_db "1000" = [SubmissionRow "1000" 1 "ab" 2 "2024-01-01T00:00:09"].
Proof. by repeat split. Qed.

(** * Properties of the whole store *)

(** ** Users and tests are kept *)

Section Extends.

Implicit Types (d : db) (c : string) (t : test_row).

Lemma same_test_refl t : same_test t t.
Proof. unfold same_test. by auto 10. Qed.

Lemma same_test_trans t1 t2 t3 : same_test t1 t2 → same_test t2 t3 → same_test t1 t3.
Proof.
  unfold same_test. intros (? & ? & ? & ? & ? & Ho1) (? & ? & ? & ? & ? & Ho2).
  repeat split; try congruence.
  destruct Ho1 as [<-|?], Ho2 as [?|?]; auto; right; congruence.
Qed.

Lemma same_test_closed_row t : same_test t (closed_row t).
Proof. unfold same_test. cbn. by auto 10. Qed.

Lemma extends_refl d : extends d d.
Proof.
  split.
  - intros uid u Hu. by exists u.
  - intros c t Ht. exists t. split; [done|apply same_test_refl].
Qed.

Lemma extends_trans d1 d2 d3 : extends d1 d2 → extends d2 d3 → extends d1 d3.
Proof.
  intros [Hu1 Ht1] [Hu2 Ht2]. split.
  - intros uid u (u' & Hu' & E1)%Hu1. apply Hu2 in Hu' as (u'' & ? & E2).
    exists u''. split; [done|congruence].
  - intros c t (t' & Ht' & S1)%Ht1. apply Ht2 in Ht' as (t'' & ? & S2).
    exists t''. split; [done|by eapply same_test_trans].
Qed.

Lemma extends_set_role d uid r now : extends d (set_role d uid r now).
Proof.
  split.
  - intros uid' u Hu. unfold set_role. cbn [users].
    destruct (decide (uid = uid')) as [->|Hne].
    + rewrite lookup_insert_eq, Hu. by eexists.
    + rewrite lookup_insert_ne by done. by exists u.
  - intros c t Ht. exists t. split; [done|apply same_test_refl].
Qed.

Lemma extends_insert_test d c owner key n now d' :
  insert_test d c owner key n now = Some d' → extends d d'.
Proof.
  intros [_ ->]%insert_test_Some. split.
  - intros uid u Hu. by exists u.
  - intros c' t Ht. exists t. split; [|apply same_test_refl].
    unfold select_test in *. cbn [tests]. by rewrite find_code_app, Ht.
Qed.

Lemma extends_close_test d c : extends d (close_test d c).
Proof.
  split.
  - intros uid u Hu. by exists u.
  - intros c' t Ht. rewrite select_test_close_test, Ht. cbn.
    destruct (String.eqb (code t) c); eexists; (split; [done|]).
    + apply same_test_closed_row.
    + apply same_test_refl.
Qed.

Lemma extends_insert_submission d s d' : insert_submission d s = Some d' → extends d d'.
Proof.
  intros [_ ->]%insert_submission_Some. split.
  - intros uid u Hu. by exists u.
  - intros c t Ht. exists t. split; [done|apply same_test_refl].
Qed.

Lemma extends_step order_by s e : extends (store s) (store (step order_by s e).1).
Proof.
  destruct e as [uid parts now|uid parts|uid n_str key_raw|uid c ans_raw now|parts|i draws now];
    cbn [step]; rewrite ?store_start; try apply extends_refl.
  - unfold cmd_register. destruct (parts !! 1%nat) as [r|]; [|apply extends_refl].
    destruct (_ || _); [apply extends_set_role|apply extends_refl].
  - destruct (inflight s !! i) as [p|]; [|apply extends_refl].
    destruct p as [uid c|c key|uid n key|uid n key c t|uid c answers key t]; cbn [resume].
    + rewrite store_start. apply extends_refl.
    + apply extends_close_test.
    + destruct (generate_unique_code _ _); apply extends_refl.
    + unfold create_write. destruct (insert_test _ _ _ _ _ _) eqn:Hins.
      * by eapply extends_insert_test.
      * apply extends_refl.
    + unfold submit_write. destruct (insert_submission _ _) eqn:Hins.
      * by eapply extends_insert_submission.
      * apply extends_refl.
Qed.

Lemma extends_run order_by es : ∀ s, extends (store s) (store (run order_by s es).1).
Proof.
  induction es as [|e es IH]; intros s; cbn [run]; [apply extends_refl|].
  pose proof (extends_step order_by s e) as Hstep.
  destruct (step order_by s e) as [s' r]. specialize (IH s').
  destruct (run order_by s' es) as [s'' rs]. by eapply extends_trans.
Qed.

End Extends.

(** ** Every stored row is well formed *)

Section WellFormed.

Implicit Types (d : db) (c : string) (t : test_row) (s : sys).

Lemma is_author_registered d uid :
  is_author (get_role d uid) = true → is_Some (users d !! uid).
Proof. unfold get_role. by destruct (users d !! uid). Qed.

Lemma create_check_Next d uid n_str key_raw n key :
  create_check d uid n_str key_raw = Next (n, key) →
  is_author (get_role d uid) = true ∧ Py.int n_str = Some n ∧ key = norm key_raw
  ∧ Py.all_abcd key = true ∧ Py.len key = n.
Proof.
  unfold create_check. destruct (is_author (get_role d uid)); [|done]. cbn [negb].
  destruct (Py.int n_str) as [n'|]; [|done].
  destruct (Py.all_abcd (norm key_raw)) eqn:Hvalid; [|done]. cbn [negb].
  destruct (Z.eqb_spec (Py.len (norm key_raw)) n'); [|done]. cbn [negb].
  intros [= <- <-]. by repeat split.
Qed.

Lemma submit_check_Next d c ans_raw answers key :
  submit_check d c ans_raw = Next (answers, key) →
  answers = norm ans_raw ∧ Py.all_abcd answers = true ∧ Py.len answers = Py.len key
  ∧ ∃ t, select_test d c = Some t ∧ answer_key t = key ∧ is_open t ≠ 0.
Proof.
  unfold submit_check. destruct (Py.all_abcd (norm ans_raw)) eqn:Hvalid; [|done].
  cbn [negb]. destruct (select_test d c) as [t|]; [|done].
  destruct (Z.eqb_spec (is_open t) 0); [done|].
  destruct (Z.eqb_spec (Py.len (norm ans_raw)) (Py.len (answer_key t))); [|done].
  cbn [negb]. intros [= <- <-]. repeat split; try done. by exists t.
Qed.

Lemma well_formed_test_extends d d' t :
  extends d d' → well_formed_test d t → well_formed_test d' t.
Proof.
  intros [Hu _] (? & ? & ? & [u Hown]). repeat split; try done.
  apply Hu in Hown as (u' & -> & _). by eexists.
Qed.

Lemma well_formed_submission_extends d d' x :
  extends d d' → well_formed_submission d x → well_formed_submission d' x.
Proof.
  intros [_ Ht] (t & Hsel & ? & ? & ?).
  apply Ht in Hsel as (t' & Hsel' & _ & _ & Hkey & _).
  exists t'. rewrite Hkey. by repeat split.
Qed.

Lemma well_formed_pending_extends d d' p :
  extends d d' → well_formed_pending d p → well_formed_pending d' p.
Proof.
  intros [Hu Ht]. destruct p as [uid c|c key|uid n key|uid n key c t|uid c answers key t];
    cbn; try done.
  - intros (? & ? & [u Hreg]). repeat split; try done.
    apply Hu in Hreg as (u' & -> & _). by eexists.
  - intros (? & ? & [u Hreg]). repeat split; try done.
    apply Hu in Hreg as (u' & -> & _). by eexists.
  - intros (? & ? & t0 & Hsel & Hkey). repeat split; try done.
    apply Ht in Hsel as (t' & Hsel' & _ & _ & Hkey' & _).
    exists t'. split; [done|congruence].
Qed.

(** A change of the store under which the rows already stored, and the
    handlers in flight, stay well formed. *)
Lemma well_formed_extends s d' :
  well_formed s → extends (store s) d' →
  Forall (well_formed_submission d') (submissions (store s))
  ∧ Forall (well_formed_test d') (tests (store s))
  ∧ Forall (well_formed_pending d') (inflight s).
Proof.
  intros (_ & Htests & Hsubs & Hpend) Hext. split; [|split].
  - eapply Forall_impl; [exact Hsubs|]. intros x. by apply well_formed_submission_extends.
  - eapply Forall_impl; [exact Htests|]. intros x. by apply well_formed_test_extends.
  - eapply Forall_impl; [exact Hpend|]. intros x. by apply well_formed_pending_extends.
Qed.

Lemma well_formed_start {A} s (o : outcome A) (k : A → pending) :
  well_formed s →
  (∀ a, o = Next a → well_formed_pending (store s) (k a)) →
  well_formed (start s o k).1.
Proof.
  intros Hwf Hk. destruct o as [r|a]; [done|]. cbn [start fst].
  destruct Hwf as (Hroles & Htests & Hsubs & Hpend).
  split; [done|]. split; [done|]. split; [done|]. cbn [store inflight].
  apply Forall_app. split; [done|]. apply Forall_singleton. by apply Hk.
Qed.

Lemma well_formed_drop s i :
  well_formed s → well_formed (Sys (store s) (delete i (inflight s))).
Proof.
  intros (Hroles & Htests & Hsubs & Hpend). repeat split; try done.
  by apply Forall_delete.
Qed.

Lemma well_formed_set_role s uid r now :
  valid_role r → well_formed s →
  well_formed (Sys (set_role (store s) uid r now) (inflight s)).
Proof.
  intros Hr Hwf.
  destruct (well_formed_extends s _ Hwf (extends_set_role (store s) uid r now))
    as (Hsubs & Htests & Hpend).
  split; [|by repeat split].
  intros uid' u. cbn [store set_role users].
  destruct (decide (uid = uid')) as [->|Hne].
  - rewrite lookup_insert_eq. by destruct (users (store s) !! uid'); intros [= <-].
  - rewrite lookup_insert_ne by done. apply Hwf.
Qed.

Lemma well_formed_register s uid parts now :
  well_formed s →
  well_formed (Sys (cmd_register (store s) uid parts now).1 (inflight s)).
Proof.
  intros Hwf. unfold cmd_register.
  destruct (parts !! 1%nat) as [r|]; [|by destruct s].
  destruct (String.eqb_spec r "author") as [->|_]; cbn [orb fst].
  { apply well_formed_set_role; [by left|done]. }
  destruct (String.eqb_spec r "participant") as [->|_]; cbn [fst]; [|by destruct s].
  apply well_formed_set_role; [by right|done].
Qed.

Lemma well_formed_close s c rest :
  well_formed (Sys (store s) rest) → well_formed (Sys (close_test (store s) c) rest).
Proof.
  intros Hwf.
  destruct (well_formed_extends _ _ Hwf (extends_close_test (store s) c))
    as (Hsubs & Htests & Hpend).
  destruct Hwf as (Hroles & _ & _ & _). unfold well_formed. cbn [store inflight] in *.
  split; [done|]. split; [|by split].
  cbn [close_test tests]. apply Forall_map.
  eapply Forall_impl; [exact Htests|]. intros t (? & ? & ? & ?). cbn.
  destruct (String.eqb (code t) c); [|done]. unfold well_formed_test. cbn. by auto 10.
Qed.

Lemma well_formed_create_write s rest uid n key c now :
  well_formed (Sys (store s) rest) →
  well_formed_pending (store s) (CreateWrite uid n key c now) →
  well_formed (Sys (create_write (store s) uid n key c now).1 rest).
Proof.
  intros Hwf (Hvalid & Hlen & Hreg). unfold create_write.
  destruct (insert_test _ _ _ _ _ _) as [d'|] eqn:Hins; [|done]. cbn [fst].
  destruct (well_formed_extends _ _ Hwf (extends_insert_test _ _ _ _ _ _ _ Hins))
    as (Hsubs & Htests & Hpend).
  apply insert_test_Some in Hins as [_ ->].
  destruct Hwf as (Hroles & _ & _ & _). unfold well_formed. cbn [store inflight] in *.
  split; [done|]. split; [|by split]. cbn [tests].
  apply Forall_app. split; [done|]. apply Forall_singleton.
  unfold well_formed_test. cbn. by auto 10.
Qed.

Lemma well_formed_submit_write s rest uid c answers key now :
  well_formed (Sys (store s) rest) →
  well_formed_pending (store s) (SubmitWrite uid c answers key now) →
  well_formed (Sys (submit_write (store s) uid c answers key now).1 rest).
Proof.
  intros Hwf (Hvalid & Hlen & t & Hsel & Hkey). unfold submit_write.
  destruct (insert_submission _ _) as [d'|] eqn:Hins; [|done]. cbn [fst].
  destruct (well_formed_extends _ _ Hwf (extends_insert_submission _ _ _ Hins))
    as (Hsubs & Htests & Hpend).
  apply insert_submission_Some in Hins as [_ ->].
  destruct Hwf as (Hroles & _ & _ & _). unfold well_formed. cbn [store inflight] in *.
  split; [done|]. split; [done|]. split; [|done]. cbn [submissions].
  apply Forall_app. split; [done|]. apply Forall_singleton.
  exists t. cbn. rewrite Hkey. by repeat split.
Qed.

Lemma well_formed_step order_by s e :
  well_formed s → well_formed (step order_by s e).1.
Proof.
  intros Hwf.
  destruct e as [uid parts now|uid parts|uid n_str key_raw|uid c ans_raw now|parts|i draws now];
    cbn [step].
  - pose proof (well_formed_register s uid parts now Hwf) as H.
    by destruct (cmd_register _ _ _ _).
  - by apply well_formed_start.
  - apply well_formed_start; [done|]. intros [n key] Hnext. cbn.
    apply create_check_Next in Hnext as (Hauthor & _ & _ & ? & ?).
    repeat split; try done. by apply is_author_registered.
  - apply well_formed_start; [done|]. intros [answers key] Hnext. cbn.
    by apply submit_check_Next in Hnext as (_ & ? & ? & t & ? & ? & _); eauto 6.
  - done.
  - destruct (inflight s !! i) as [p|] eqn:Hp; [|done].
    pose proof (well_formed_drop s i Hwf) as Hrest.
    assert (well_formed_pending (store s) p) as Hpwf.
    { destruct Hwf as (_ & _ & _ & Hpend). rewrite Forall_lookup in Hpend. by eapply Hpend. }
    destruct p as [uid c|c key|uid n key|uid n key c t|uid c answers key t]; cbn [resume].
    + by apply (well_formed_start (Sys (store s) _)).
    + cbn [finish_write fst]. by apply well_formed_close.
    + destruct (generate_unique_code _ _) as [c|]; cbn [fst];
        destruct Hrest as (? & ? & ? & Hpend); repeat split; try done;
        cbn [store inflight] in *; (apply Forall_app; split; [done|]);
        by apply Forall_singleton.
    + pose proof (well_formed_create_write s _ uid n key c t Hrest Hpwf) as H.
      by destruct (create_write _ _ _ _ _ _).
    + pose proof (well_formed_submit_write s _ uid c answers key t Hrest Hpwf) as H.
      by destruct (submit_write _ _ _ _ _ _).
Qed.

Lemma well_formed_run order_by es : ∀ s,
  well_formed s → well_formed (run order_by s es).1.
Proof.
  induction es as [|e es IH]; intros s Hwf; cbn [run]; [done|].
  pose proof (well_formed_step order_by s e Hwf) as Hstep.
  destruct (step order_by s e) as [s' r]. specialize (IH s' Hstep).
  by destruct (run order_by s' es).
Qed.

Lemma well_formed_init : well_formed init_sys.
Proof. repeat split; by try apply Forall_nil_2. Qed.

Lemma reachable_well_formed s : reachable s → well_formed s.
Proof. intros (order_by & es & <-). apply well_formed_run, well_formed_init. Qed.

End WellFormed.

(** ** Registration *)

(** X1.  [cmd_register] with the word author or participant answers
    RoleSet, and from then on [get_role] gives that word for the caller.
    A user already registered keeps the created_at of the first
    registration, a new one gets the current time.  No other user's row,
    no test and no submission is touched. *)
Theorem cmd_register_sets_role :
  ∀ d uid parts now r,
    parts !! 1%nat = Some r → valid_role r →
    let res := cmd_register d uid parts now in
    res.2 = RoleSet r
    ∧ get_role res.1 uid = Some r
    ∧ (user_created_at <$> users res.1 !! uid
       = Some (default now (user_created_at <$> users d !! uid)))
    ∧ (∀ uid', uid' ≠ uid → users res.1 !! uid' = users d !! uid')
    ∧ tests res.1 = tests d ∧ submissions res.1 = submissions d.
Proof.
  intros d uid parts now r Hparts Hr res. subst res. unfold cmd_register.
  rewrite Hparts.
  assert (String.eqb r "author" || String.eqb r "participant" = true) as ->.
  { destruct Hr as [-> | ->]; reflexivity. }
  cbn [fst snd]. unfold get_role, set_role. cbn [users tests submissions].
  rewrite lookup_insert_eq. repeat split.
  - by destruct (users d !! uid).
  - by destruct (users d !! uid).
  - intros uid' Hne. by rewrite lookup_insert_ne.
Qed.

Lemma cmd_register_sets_role_witness :
  valid_role "participant"
  ∧ get_role (cmd_register one_test_db 1 ["/register"; "participant"]
                "2024-01-01T00:00:05").1 1 = Some "participant"
  ∧ user_created_at <$> users (cmd_register one_test_db 1 ["/register"; "participant"]
                                 "2024-01-01T00:00:05").1 !! 1
    = Some "2024-01-01T00:00:00".
Proof.
  assert (valid_role "participant") as Hr by by right.
  split; [exact Hr|].
  destruct (cmd_register_sets_role one_test_db 1 ["/register"; "participant"]
              "2024-01-01T00:00:05" "participant" eq_refl Hr) as (_ & Hrole & Hcreated & _).
  split; [exact Hrole|exact Hcreated].
Defined.

(** X2.  [cmd_register] without a second word, or with a second word that
    is not exactly author or participant, answers with the usage line and
    leaves the store as it is. *)
Theorem cmd_register_refuses :
  ∀ d uid parts now,
    (∀ r, parts !! 1%nat = Some r → ¬ valid_role r) →
    cmd_register d uid parts now = (d, RegisterUsage).
Proof.
  intros d uid parts now Hbad. unfold cmd_register.
  destruct (parts !! 1%nat) as [r|]; [|done]. specialize (Hbad r eq_refl).
  destruct (String.eqb_spec r "author") as [->|_]; [by destruct Hbad; left|].
  destruct (String.eqb_spec r "participant") as [->|_]; [by destruct Hbad; right|done].
Qed.

Lemma cmd_register_refuses_witness :
  cmd_register one_test_db 1 ["/register"; "Author"] "2024-01-01T00:00:05"
  = (one_test_db, RegisterUsage)
  ∧ cmd_register one_test_db 1 ["/register"] "2024-01-01T00:00:05"
    = (one_test_db, RegisterUsage).
Proof.
  split; apply cmd_register_refuses; intros r [= <-].
  intros [?|?]; discriminate.
Defined.

(** X3.  In every reachable state each stored role is author or
    participant; [get_role] gives one of the two words or nothing. *)
Theorem stored_roles_valid :
  ∀ s uid r, reachable s → get_role (store s) uid = Some r → valid_role r.
Proof.
  intros s uid r (Hroles & _)%reachable_well_formed. unfold get_role.
  destruct (users (store s) !! uid) as [u|] eqn:Hu; [|done].
  intros [= <-]. by eapply Hroles.
Qed.

Lemma stored_roles_valid_witness :
  reachable (Sys one_test_db []) ∧ valid_role "author".
Proof.
  split; [apply issued_reachable|].
  exact (stored_roles_valid (Sys one_test_db []) 1 "author" (issued_reachable 1) eq_refl).
Defined.

(** X4.  A user is never removed and keeps the created_at of the first
    registration, whatever handlers run and however they interleave. *)
Theorem user_kept :
  ∀ order_by s es uid u,
    users (store s) !! uid = Some u →
    ∃ u', users (store (run order_by s es).1) !! uid = Some u'
          ∧ user_created_at u' = user_created_at u.
Proof.
  intros order_by s es uid u Hu.
  destruct (extends_run order_by es s) as [Husers _]. by apply Husers.
Qed.

Lemma user_kept_witness :
  ∃ u', users (store (run rank_by_insertion (Sys one_test_db [])
                        [Register 1 ["/register"; "participant"] "2024-01-01T00:00:05"]).1)
          !! 1 = Some u'
        ∧ user_created_at u' = "2024-01-01T00:00:00".
Proof.
  exact (user_kept rank_by_insertion (Sys one_test_db [])
           [Register 1 ["/register"; "participant"] "2024-01-01T00:00:05"] 1
           (UserRow "author" "2024-01-01T00:00:00") eq_refl).
Defined.

Lemma users_step_other order_by s e uid :
  (∀ parts now, e ≠ Register uid parts now) →
  users (store (step order_by s e).1) !! uid = users (store s) !! uid.
Proof.
  intros Hne.
  destruct e as [uid' parts now|uid' parts|uid' n_str key_raw|uid' c ans_raw now|parts|i draws now];
    cbn [step]; rewrite ?store_start; try done.
  - unfold cmd_register. destruct (parts !! 1%nat) as [r|]; [|done].
    destruct (_ || _); [|done]. cbn [fst store set_role users].
    apply lookup_insert_ne. intros ->. by eapply Hne.
  - destruct (inflight s !! i) as [p|]; [|done].
    destruct p as [u c|c key|u n key|u n key c t|u c answers key t]; cbn [resume].
    + by rewrite store_start.
    + done.
    + by destruct (generate_unique_code _ _).
    + unfold create_write, insert_test. by destruct (existsb _ _).
    + unfold submit_write, insert_submission. by destruct (existsb _ _).
Qed.

(** X5.  The role of a user changes by that user's own /register only: a
    schedule without a /register of the user leaves the user's row as it
    is, whatever else runs. *)
Theorem role_changed_by_own_register_only :
  ∀ order_by es s uid,
    (∀ parts now, Register uid parts now ∉ es) →
    users (store (run order_by s es).1) !! uid = users (store s) !! uid.
Proof.
  intros order_by es. induction es as [|e es IH]; intros s uid Hnone; cbn [run]; [done|].
  pose proof (users_step_other order_by s e uid) as Hstep.
  destruct (step order_by s e) as [s' r]. specialize (IH s' uid).
  destruct (run order_by s' es) as [s'' rs]. cbn [fst] in *.
  rewrite IH, Hstep; [done|..].
  - intros parts now ->. apply (Hnone parts now). by left.
  - intros parts now Hin. apply (Hnone parts now). by right.
Qed.

Lemma role_changed_by_own_register_only_witness :
  users (store (run rank_by_insertion (Sys one_test_db [])
                  [Register 2 ["/register"; "author"] "2024-01-01T00:00:05";
                   Finish 2 ["/finish"; "1000"]]).1) !! 1
  = users one_test_db !! 1.
Proof.
  apply (role_changed_by_own_register_only rank_by_insertion _ (Sys one_test_db []) 1).
  intros parts now. rewrite !elem_of_cons, elem_of_nil. intros [[=]|[[=]|[]]].
Defined.

(** ** Stored tests and submissions *)

(** X6.  A stored test is never removed and never rewritten: whatever runs,
    the test found under its code keeps code, owner, answer key, length and
    created_at, and its is_open either stays or has gone to 0. *)
Theorem test_kept :
  ∀ order_by s es c t,
    select_test (store s) c = Some t →
    ∃ t', select_test (store (run order_by s es).1) c = Some t' ∧ same_test t t'.
Proof.
  intros order_by s es c t Ht.
  destruct (extends_run order_by es s) as [_ Htests]. by apply Htests.
Qed.

Lemma test_kept_witness :
  ∃ t', select_test (store (run rank_by_insertion (Sys one_test_db [])
                              [Finish 1 ["/finish"; "1000"]; Resume 0 [] ""; Resume 0 [] ""]).1)
          "1000" = Some t'
        ∧ same_test (TestRow "1000" 1 "a" 1 1 "2024-01-01T00:00:00") t'.
Proof.
  exact (test_kept rank_by_insertion (Sys one_test_db [])
           [Finish 1 ["/finish"; "1000"]; Resume 0 [] ""; Resume 0 [] ""] "1000"
           (TestRow "1000" 1 "a" 1 1 "2024-01-01T00:00:00") eq_refl).
Defined.

(** X7.  In every reachable state each stored test has a key of the letters
    a..d only, as long as its length column says, an is_open of 1 or 0, and
    an owner who is a registered user. *)
Theorem stored_tests_well_formed :
  ∀ s t,
    reachable s → t ∈ tests (store s) →
    Py.all_abcd (answer_key t) = true
    ∧ Py.len (answer_key t) = test_length t
    ∧ (is_open t = 1 ∨ is_open t = 0)
    ∧ ∃ r, get_role (store s) (owner_id t) = Some r ∧ valid_role r.
Proof.
  intros s t Hs Ht. pose proof (reachable_well_formed s Hs) as (Hroles & Htests & _).
  rewrite Forall_forall in Htests. destruct (Htests t Ht) as (? & ? & ? & [u Hu]).
  repeat split; try done. exists (role u). unfold get_role. rewrite Hu.
  split; [done|]. by eapply Hroles.
Qed.

Lemma stored_tests_well_formed_witness :
  reachable example_sys
  ∧ Py.len "abcda" = 5
  ∧ ∃ r, get_role (store example_sys) 9 = Some r ∧ valid_role r.
Proof.
  assert (reachable example_sys) as Hr by by exists rank_by_insertion, example_schedule.
  split; [exact Hr|].
  destruct (stored_tests_well_formed example_sys
              (TestRow "1000" 9 "abcda" 5 1 "2024-01-01T00:00:01") Hr ltac:(by left))
    as (_ & Hlen & _ & Howner).
  split; [exact Hlen|exact Howner].
Defined.

(** X8.  In every reachable state, under any interleaving, each stored
    submission belongs to a stored test, has answers of the letters a..d
    only, as many as the test has questions, and a score that is the score
    of its answers against the key of that test, between 0 and the number
    of questions. *)
Theorem stored_submissions_well_formed :
  ∀ s x,
    reachable s → x ∈ submissions (store s) →
    ∃ t, select_test (store s) (test_code x) = Some t
         ∧ Py.all_abcd (answers x) = true
         ∧ Py.len (answers x) = test_length t
         ∧ score x = score_answers (answer_key t) (answers x)
         ∧ 0 ≤ score x ≤ test_length t.
Proof.
  intros s x Hs Hx. pose proof (reachable_well_formed s Hs) as (_ & Htests & Hsubs & _).
  rewrite Forall_forall in Hsubs. rewrite Forall_forall in Htests.
  destruct (Hsubs x Hx) as (t & Hsel & Hvalid & Hlen & Hscore).
  destruct (Htests t) as (_ & Hkey & _); [by apply select_test_Some in Hsel as [? _]|].
  exists t. repeat split; try done; try congruence.
  - rewrite Hscore. apply score_answers_bounds.
  - rewrite Hscore, <- Hkey.
    pose proof (score_answers_bounds (answer_key t) (answers x)) as Hb.
    unfold Py.len in *. lia.
Qed.

Lemma stored_submissions_well_formed_witness :
  reachable example_sys
  ∧ ∃ t, select_test (store example_sys) "1000" = Some t
         ∧ Py.all_abcd "abcbb" = true
         ∧ Py.len "abcbb" = test_length t
         ∧ 3 = score_answers (answer_key t) "abcbb"
         ∧ 0 ≤ 3 ≤ test_length t.
Proof.
  assert (reachable example_sys) as Hr by by exists rank_by_insertion, example_schedule.
  split; [exact Hr|].
  exact (stored_submissions_well_formed example_sys
           (SubmissionRow "1000" 2 "abcbb" 3 "2024-01-01T00:00:05") Hr
           ltac:(right; left)).
Defined.

(** ** Leaderboards *)

Section Boards.

Implicit Types (d : db) (c key : string) (rows : list submission_row).

Lemma take_imap {A B} (f : nat → A → B) (l : list A) k :
  take k (imap f l) = imap f (take k l).
Proof.
  revert f k. induction l as [|x l IH]; intros f [|k]; cbn; try done.
  by rewrite IH.
Qed.

Lemma board_lookup k key rows i :
  board k key rows !! i
  = (fun x => BoardLine (Z.of_nat i + 1) (user_id x) (score x) (Py.len key))
      <$> take k rows !! i.
Proof. unfold board. by rewrite list_lookup_imap. Qed.

Lemma board_length k key rows :
  length (board k key rows) = Nat.min k (length rows).
Proof. unfold board. by rewrite length_imap, length_take. Qed.

Lemma board_users k key rows :
  line_user <$> board k key rows = user_id <$> take k rows.
Proof.
  unfold board. rewrite fmap_imap, <- imap_const. by apply imap_ext.
Qed.

Lemma board_take j k key rows :
  take j (board k key rows) = board (Nat.min j k) key rows.
Proof. unfold board. by rewrite take_imap, take_take. Qed.

Lemma elem_of_board k key rows line :
  line ∈ board k key rows →
  ∃ x, x ∈ rows ∧ line_user line = user_id x ∧ line_score line = score x
       ∧ line_total line = Py.len key.
Proof.
  intros [i Hi]%list_elem_of_lookup_1. rewrite board_lookup in Hi.
  destruct (take k rows !! i) as [x|] eqn:Hx; [|done]. injection Hi as <-.
  exists x. split; [|done].
  apply (subseteq_take k rows). by eapply list_elem_of_lookup_2.
Qed.

Lemma select_submissions_users d c :
  NoDup (pairs d) → NoDup (user_id <$> select_submissions d c).
Proof.
  unfold pairs, select_submissions.
  induction (submissions d) as [|x l IH]; [intros _; apply NoDup_nil_2|].
  rewrite fmap_cons, NoDup_cons. intros [Hx Hl]. cbn [List.filter].
  destruct (String.eqb_spec (test_code x) c) as [Hc|_]; [|by apply IH].
  rewrite fmap_cons. apply NoDup_cons. split; [|by apply IH].
  intros (y & Hu & Hy)%list_elem_of_fmap. apply Hx.
  apply list_elem_of_In, filter_In in Hy as [Hy Hcy%String.eqb_eq].
  apply list_elem_of_fmap. exists y. split; [|by apply list_elem_of_In].
  unfold pair_of. congruence.
Qed.


(** How [cmd_finish] comes to close a test. *)
Lemma cmd_finish_closes order_by d uid parts d' r :
  cmd_finish order_by d uid parts = (d', r) →
  (∀ c, r ≠ ClosedNoParticipants c) ∧ (∀ c lines, r ≠ ClosedWithResults c lines)
  ∨ ∃ c t,
      parts !! 1%nat = Some c ∧ Py.isdigit c = true
      ∧ is_author (get_role d uid) = true
      ∧ select_test d c = Some t ∧ owner_id t = uid ∧ is_open t ≠ 0
      ∧ (d', r) = finish_write order_by d c (answer_key t).
Proof.
  unfold cmd_finish, finish_gate, finish_lookup.
  destruct (is_author (get_role d uid)); cbn [negb]; [|intros [= <- <-]; by left].
  destruct (parts !! 1%nat) as [c|]; [|intros [= <- <-]; by left].
  destruct (Py.isdigit c) eqn:Hdigit; [|intros [= <- <-]; by left].
  destruct (select_test d c) as [t|] eqn:Hsel; [|intros [= <- <-]; by left].
  destruct (Z.eqb_spec (owner_id t) uid) as [Hown|_]; cbn [negb];
    [|intros [= <- <-]; by left].
  destruct (Z.eqb_spec (is_open t) 0) as [|Hopen]; [intros [= <- <-]; by left|].
  intros <-. right. exists c, t. by repeat split.
Qed.

End Boards.

(** X9.  The leaderboard [cmd_finish] sends.  In a reachable state, with an
    engine that answers the ORDER BY clause, it has between one and ten
    lines, as many as the test has submissions when these are at most ten;
    the lines are numbered from 1 on; no participant is listed twice; the
    scores never increase down the board; and every line shows a stored
    submission of that test with its score, out of the number of questions
    of the test. *)
Theorem closing_board_shape :
  ∀ order_by d l uid parts d' c lines,
    reachable (Sys d l) →
    (∀ rows, order_by_ok rows (order_by rows) = true) →
    cmd_finish order_by d uid parts = (d', ClosedWithResults c lines) →
    (0 < length lines)%nat
    ∧ length lines = Nat.min 10 (length (select_submissions d c))
    ∧ (∀ i line, lines !! i = Some line → position line = Z.of_nat i + 1)
    ∧ NoDup (line_user <$> lines)
    ∧ (∀ i j a b, (i < j)%nat → lines !! i = Some a → lines !! j = Some b →
                  line_score b ≤ line_score a)
    ∧ (∀ line, line ∈ lines →
         ∃ x t, x ∈ submissions d ∧ test_code x = c
                ∧ select_test d c = Some t
                ∧ user_id x = line_user line ∧ score x = line_score line
                ∧ line_total line = test_length t
                ∧ 0 ≤ line_score line ≤ line_total line).
Proof.
  intros order_by d l uid parts d' c lines Hreach Hengine Hfinish.
  apply cmd_finish_closes in Hfinish as [[_ Hno]|(c' & t & _ & _ & _ & Hsel & _ & _ & Hw)];
    [by destruct (Hno c lines)|].
  unfold finish_write in Hw.
  change (select_submissions (close_test d c') c') with (select_submissions d c') in Hw.
  set (rows := order_by (select_submissions d c')) in *.
  destruct (proj1 (order_by_ok_spec _ _) (Hengine (select_submissions d c')))
    as [Hperm Hsorted]. fold rows in Hperm, Hsorted.
  clearbody rows.
  assert (c' = c ∧ lines = board 10 (answer_key t) rows ∧ rows ≠ []) as (-> & -> & Hne).
  { destruct rows; [done|]. injection Hw as _ <- ->. by repeat split. }
  clear Hw.
  pose proof (reachable_constraints _ Hreach) as [_ Hpairs].
  pose proof (reachable_well_formed _ Hreach) as (_ & Htests & Hsubs & _).
  cbn [store] in *. rewrite Forall_forall in Hsubs. rewrite Forall_forall in Htests.
  split; [|split; [|split; [|split; [|split]]]].
  - rewrite board_length. destruct rows; [done|]. cbn. lia.
  - by rewrite board_length, Hperm.
  - intros i line. rewrite board_lookup.
    destruct (take 10 rows !! i); [|done]. by intros [= <-].
  - rewrite board_users. apply (sublist_NoDup _ (user_id <$> rows)).
    + rewrite Hperm. by apply select_submissions_users.
    + apply fmap_sublist, sublist_take.
  - intros i j a b Hij. rewrite !board_lookup.
    destruct (take 10 rows !! i) as [x|] eqn:Hx; [|done].
    destruct (take 10 rows !! j) as [y|] eqn:Hy; [|done].
    intros [= <-] [= <-]. cbn.
    apply Sorted_StronglySorted in Hsorted; [|apply _].
    apply (rank_le_keys x y).
    apply (StronglySorted_lookup_lt rank_le rows Hsorted i j); [done|..].
    + apply lookup_take_Some in Hx. tauto.
    + apply lookup_take_Some in Hy. tauto.
  - intros line (x & Hx & Hu & Hs & Htot)%elem_of_board.
    rewrite Hperm in Hx. apply elem_of_select_submissions in Hx as [Hx Hc].
    destruct (Hsubs x Hx) as (t' & Hsel' & _ & Hlen & Hscore).
    rewrite Hc, Hsel in Hsel'. injection Hsel' as <-.
    destruct (Htests t) as (_ & Hkey & _); [by apply select_test_Some in Hsel as [? _]|].
    exists x, t. repeat split; try done; try congruence.
    + rewrite Hs, Hscore. apply score_answers_bounds.
    + rewrite Hs, Htot, Hscore.
      pose proof (score_answers_bounds (answer_key t) (answers x)) as Hb.
      unfold Py.len in *. lia.
Qed.

Lemma closing_board_shape_witness :
  reachable example_sys
  ∧ (∀ rows, order_by_ok rows (rank_by_insertion rows) = true)
  ∧ NoDup (line_user <$> [BoardLine 1 3 5 5; BoardLine 2 2 3 5; BoardLine 3 1 3 5])
  ∧ length [BoardLine 1 3 5 5; BoardLine 2 2 3 5; BoardLine 3 1 3 5]
    = Nat.min 10 (length (select_submissions (store example_sys) "1000")).
Proof.
  assert (reachable example_sys) as Hr by by exists rank_by_insertion, example_schedule.
  split; [exact Hr|]. split; [exact rank_by_insertion_ok|].
  destruct (closing_board_shape rank_by_insertion (store example_sys) (inflight example_sys)
              9 ["/finish"; "1000"] (close_test (store example_sys) "1000") "1000"
              [BoardLine 1 3 5 5; BoardLine 2 2 3 5; BoardLine 3 1 3 5]
              Hr rank_by_insertion_ok eq_refl) as (_ & Hlen & _ & Hnodup & _).
  split; [exact Hnodup|exact Hlen].
Defined.



(** X11.  /results right after a successful /finish agrees with what the
    close reported: the test is shown as closed; when the close found no
    participants, so does /results; when it sent a leaderboard, that
    leaderboard is the first ten lines of the one /results sends. *)
Theorem results_after_finish :
  ∀ order_by d uid parts d' r c parts',
    cmd_finish order_by d uid parts = (d', r) →
    parts' !! 1%nat = Some c →
    (r = ClosedNoParticipants c → cmd_results order_by d' parts' = NoAttempts c false)
    ∧ (∀ lines, r = ClosedWithResults c lines →
         ∃ lines', cmd_results order_by d' parts' = Results c false lines'
                   ∧ take 10 lines' = lines).
Proof.
  intros order_by d uid parts d' r c parts' Hfinish Hparts'.
  apply cmd_finish_closes in Hfinish
    as [[Hno1 Hno2]|(c' & t & _ & _ & _ & Hsel & _ & _ & Hw)].
  { split; [intros ->; by destruct (Hno1 c)|intros lines ->; by destruct (Hno2 c lines)]. }
  unfold finish_write in Hw. injection Hw as -> Hr.
  change (select_submissions (close_test d c') c') with (select_submissions d c') in Hr.
  assert (cmd_results order_by (close_test d c') parts'
                  = match select_test (close_test d c') c with
                    | None => ResultsNotFound
                    | Some row =>
                        match order_by (select_submissions d c) with
                        | [] => NoAttempts c (negb (is_open row =? 0))
                        | _ => Results c (negb (is_open row =? 0))
                                 (board 15 (answer_key row)
                                    (order_by (select_submissions d c)))
                        end
                    end) as Hres.
  { unfold cmd_results. by rewrite Hparts'. }
  split.
  - intros ->. destruct (order_by (select_submissions d c')) eqn:Hrows; [|done].
    injection Hr as <-. by rewrite Hres, (select_test_closed d c t Hsel), Hrows.
  - intros lines ->. destruct (order_by (select_submissions d c')) as [|x rows] eqn:Hrows;
      [done|].
    injection Hr as <- ->. rewrite Hres, (select_test_closed d c t Hsel), Hrows.
    eexists. split; [reflexivity|]. cbn [answer_key closed_row]. by rewrite board_take.
Qed.

Lemma results_after_finish_witness :
  cmd_finish rank_by_insertion (store example_sys) 9 ["/finish"; "1000"]
  = (close_test (store example_sys) "1000",
     ClosedWithResults "1000" [BoardLine 1 3 5 5; BoardLine 2 2 3 5; BoardLine 3 1 3 5])
  ∧ ∃ lines', cmd_results rank_by_insertion (close_test (store example_sys) "1000")
                ["/results"; "1000"] = Results "1000" false lines'
              ∧ take 10 lines' = [BoardLine 1 3 5 5; BoardLine 2 2 3 5; BoardLine 3 1 3 5].
Proof.
  split; [reflexivity|].
  exact (proj2 (results_after_finish rank_by_insertion (store example_sys) 9
                  ["/finish"; "1000"] _ _ "1000" ["/results"; "1000"] eq_refl eq_refl)
           _ eq_refl).
Defined.



(** ** More on scoring and on [norm] *)

(** X13.  The score does not depend on which of the two strings is the key:
    [score_answers key ans = score_answers ans key]. *)
Theorem score_answers_sym : ∀ key ans, score_answers key ans = score_answers ans key.
Proof.
  induction key as [|k key IH]; intros [|a ans].
  - done.
  - by rewrite score_answers_nil_r.
  - by rewrite score_answers_nil_r.
  - by rewrite !score_answers_cons, IH, (Ascii.eqb_sym k a).
Qed.

(** X14.  For answers as long as the key, the score is the full number of
    questions exactly when the answers are the key. *)
Theorem score_answers_full :
  ∀ key ans,
    String.length key = String.length ans →
    (score_answers key ans = Py.len key ↔ ans = key).
Proof.
  unfold Py.len. induction key as [|k key IH]; intros [|a ans] Hlen; try done.
  injection Hlen as Hlen. rewrite score_answers_cons. cbn [String.length].
  pose proof (score_answers_bounds key ans) as Hb.
  rewrite <- Hlen, Nat.min_id in Hb. specialize (IH ans Hlen).
  destruct (Ascii.eqb_spec k a) as [->|Hne].
  - split.
    + intros Hs. f_equal. apply IH. lia.
    + intros [= ->]. apply proj2 in IH. specialize (IH eq_refl). lia.
  - split; [lia|]. by intros [= -> ->].
Qed.

Lemma score_answers_full_witness :
  score_answers "abcda" "abcda" = Py.len "abcda".
Proof. exact (proj2 (score_answers_full "abcda" "abcda" eq_refl) eq_refl). Defined.

Section Case.

Lemma isspace_lower_char c : Py.isspace (Py.lower_char c) = Py.isspace c.
Proof. by destruct c as [[] [] [] [] [] [] [] []]. Qed.

Lemma lower_lstrip s : Py.lower (Py.lstrip s) = Py.lstrip (Py.lower s).
Proof.
  induction s as [|c s IH]; [done|]. cbn [Py.lstrip Py.lower].
  rewrite isspace_lower_char. by destruct (Py.isspace c).
Qed.

Lemma lower_rev_app s1 s2 :
  Py.lower (String.rev_app s1 s2) = String.rev_app (Py.lower s1) (Py.lower s2).
Proof. revert s2. induction s1 as [|c s1 IH]; intros s2; [done|]. cbn. by rewrite IH. Qed.

Lemma lower_strip s : Py.lower (Py.strip s) = Py.strip (Py.lower s).
Proof.
  unfold Py.strip, Py.rstrip, String.rev.
  by rewrite (lower_rev_app _ ""), lower_lstrip, (lower_rev_app _ ""), lower_lstrip.
Qed.

End Case.

(** X15.  The handlers do not tell apart texts that differ in the case of
    letters only: two captured texts with the same [lower()] have the same
    [norm], so [handle_submit] answers and stores the same for both, and so
    does [handle_create]. *)
Theorem handlers_ignore_case :
  ∀ s s',
    Py.lower s = Py.lower s' →
    norm s = norm s'
    ∧ (∀ d uid c now, handle_submit d uid c s now = handle_submit d uid c s' now)
    ∧ (∀ d uid n_str draws now,
         handle_create d uid n_str s draws now = handle_create d uid n_str s' draws now).
Proof.
  intros s s' Hlower.
  assert (norm s = norm s') as Hnorm.
  { unfold norm. by rewrite !lower_strip, Hlower. }
  split; [done|]. split.
  - intros d uid c now. unfold handle_submit, submit_check. by rewrite Hnorm.
  - intros d uid n_str draws now. unfold handle_create, create_check. by rewrite Hnorm.
Qed.

Lemma handlers_ignore_case_witness :
  handle_submit one_test_db 2 "1000" "A" "2024-01-01T00:00:02"
  = handle_submit one_test_db 2 "1000" "a" "2024-01-01T00:00:02".
Proof.
  exact (proj1 (proj2 (handlers_ignore_case "A" "a" eq_refl))
           one_test_db 2 "1000" "2024-01-01T00:00:02").
Defined.

(** ** What a handler changes *)

(** X16.  A handler changes the store only when it reports success:
    whenever [cmd_register] does not answer RoleSet, [cmd_finish] sends no
    closing report, [handle_submit] does not accept, or [handle_create]
    does not report a created test, the store is exactly as before. *)
Theorem failure_changes_nothing :
  ∀ order_by d uid d' r,
    (∀ parts now,
       cmd_register d uid parts now = (d', r) → (∀ w, r ≠ RoleSet w) → d' = d)
    ∧ (∀ parts,
         cmd_finish order_by d uid parts = (d', r) →
         (∀ c, r ≠ ClosedNoParticipants c) → (∀ c lines, r ≠ ClosedWithResults c lines) →
         d' = d)
    ∧ (∀ c ans_raw now,
         handle_submit d uid c ans_raw now = (d', r) → (∀ sc n, r ≠ Accepted sc n) →
         d' = d)
    ∧ (∀ n_str key_raw draws now,
         handle_create d uid n_str key_raw draws now = Some (d', r) →
         (∀ c n, r ≠ TestCreated c n) → d' = d).
Proof.
  intros order_by d uid d' r. split; [|split; [|split]].
  - intros parts now. unfold cmd_register.
    destruct (parts !! 1%nat) as [w|]; [|by intros [= <- _]].
    destruct (_ || _); [|by intros [= <- _]].
    intros [= _ <-] Hno. by destruct (Hno w).
  - intros parts. unfold cmd_finish.
    destruct (finish_gate d uid parts) as [r0|c]; [by intros [= <- _]|].
    destruct (finish_lookup d uid c) as [r0|key]; [by intros [= <- _]|].
    unfold finish_write. intros [= _ <-] Hno1 Hno2.
    destruct (order_by _) as [|x rows]; [by destruct (Hno1 c)|].
    by destruct (Hno2 c (board 10 key (x :: rows))).
  - intros c ans_raw now. unfold handle_submit.
    destruct (submit_check d c ans_raw) as [r0|[answers key]]; [by intros [= <- _]|].
    unfold submit_write. destruct (insert_submission _ _); [|by intros [= <- _]].
    intros [= _ <-] Hno. by destruct (Hno (score_answers key answers) (Py.len answers)).
  - intros n_str key_raw draws now. unfold handle_create.
    destruct (create_check d uid n_str key_raw) as [r0|[n key]]; [by intros [= <- _]|].
    destruct (generate_unique_code d draws) as [c|]; [|done].
    unfold create_write. destruct (insert_test _ _ _ _ _ _); [|by intros [= <- _]].
    intros [= _ <-] Hno. by destruct (Hno c n).
Qed.

Lemma failure_changes_nothing_witness :
  handle_submit init_db 7 "1234" "abxd" "2024-01-01T00:00:02" = (init_db, InvalidAnswers)
  ∧ init_db = init_db.
Proof.
  split; [reflexivity|].
  exact (proj1 (proj2 (proj2 (failure_changes_nothing rank_by_insertion init_db 7 init_db
                                InvalidAnswers)))
           "1234" "abxd" "2024-01-01T00:00:02" eq_refl ltac:(done)).
Defined.

Lemma close_test_closed d c t :
  NoDup (codes d) → select_test d c = Some t → is_open t = 0 → close_test d c = d.
Proof.
  destruct d as [us ts ss]. unfold codes, select_test, close_test. cbn [tests users submissions].
  intros Hnd Hsel Hz. f_equal. revert Hnd Hsel.
  induction ts as [|t0 ts IH]; [done|]. rewrite fmap_cons, NoDup_cons. cbn [List.find map].
  intros [Hfresh Hnd]. destruct (String.eqb_spec (code t0) c) as [Hc|Hc].
  - intros [= ->]. rewrite closed_row_id by done. f_equal.
    clear IH Hnd. induction ts as [|t1 ts IH]; [done|]. cbn [map].
    rewrite fmap_cons, not_elem_of_cons in Hfresh. destruct Hfresh as [Hne Hfresh].
    destruct (String.eqb_spec (code t1) c); [congruence|]. f_equal. by apply IH.
  - intros Hsel. f_equal. by apply IH.
Qed.

(** X17.  Closing a closed test changes nothing.  In a reachable state a
    [cmd_finish] that has passed its checks and runs its UPDATE after
    another close of the same test has committed leaves the store as it
    is; it still sends a closing report, not AlreadyClosed. *)
Theorem second_close_changes_nothing :
  ∀ order_by d l c t key,
    reachable (Sys d l) →
    select_test d c = Some t → is_open t = 0 →
    (finish_write order_by d c key).1 = d
    ∧ (finish_write order_by d c key).2 ≠ AlreadyClosed.
Proof.
  intros order_by d l c t key Hreach Hsel Hz.
  pose proof (reachable_constraints _ Hreach) as [Hnd _].
  unfold finish_write. cbn [fst snd]. split.
  - by eapply close_test_closed.
  - by destruct (order_by _).
Qed.

Lemma second_close_changes_nothing_witness :
  reachable (Sys race_db [])
  ∧ (finish_write rank_by_insertion race_db "1000" "ab").1 = race_db.
Proof.
  assert (reachable (Sys race_db [])) as Hr by by exists rank_by_insertion, race_schedule.
  split; [exact Hr|].
  exact (proj1 (second_close_changes_nothing rank_by_insertion race_db [] "1000"
                  (TestRow "1000" 9 "ab" 2 0 "2024-01-01T00:00:01") "ab" Hr eq_refl eq_refl)).
Defined.

(** X18.  The allocation loop can be cut anywhere: drawing [draws1] and
    then, if none of them was unused, [draws2] gives what drawing
    [draws1 ++ draws2] in one go gives.  Draws after the first unused one
    do not matter. *)
Theorem generate_unique_code_app :
  ∀ d draws1 draws2,
    generate_unique_code d (draws1 ++ draws2)
    = match generate_unique_code d draws1 with
      | Some c => Some c
      | None => generate_unique_code d draws2
      end.
Proof.
  intros d draws1 draws2. induction draws1 as [|z draws1 IH]; [done|].
  cbn [app generate_unique_code]. by destruct (select_test d (Py.format z)).
Qed.

(** * The order of the leaderboard (C8) *)

Section StableSort.

Context {A : Type} (R Q : relation A) `{!RelDecision R, !Total R, !Transitive R}.

Lemma sorted_insert_perm x l : sorted_insert R x l ≡ₚ x :: l.
Proof.
  induction l as [|y l IH]; [done|]. cbn. destruct (decide (R x y)); [done|].
  by rewrite IH, Permutation_swap.
Qed.

Lemma stable_sort_perm l : stable_sort R l ≡ₚ l.
Proof.
  induction l as [|x l IH]; [done|].
  change (stable_sort R (x :: l)) with (sorted_insert R x (stable_sort R l)).
  by rewrite sorted_insert_perm, IH.
Qed.

Lemma sorted_insert_then_by x l :
  StronglySorted (then_by R Q) l → Forall (Q x) l →
  StronglySorted (then_by R Q) (sorted_insert R x l).
Proof.
  induction 1 as [|y l Hl IH Hy]; intros HQ; cbn.
  { repeat constructor. }
  apply Forall_cons in HQ as [HQy HQl].
  destruct (decide (R x y)) as [Hxy|Hxy].
  - constructor; [by constructor|]. constructor; [by split|].
    rewrite Forall_forall in Hy, HQl |- *. intros z Hz. split.
    + etrans; [exact Hxy|]. by apply Hy.
    + intros _. by apply HQl.
  - constructor; [by apply IH|].
    rewrite sorted_insert_perm. constructor; [|done].
    destruct (total R x y) as [?|Hyx]; [done|]. by split.
Qed.

Lemma stable_sort_then_by l :
  StronglySorted Q l → StronglySorted (then_by R Q) (stable_sort R l).
Proof.
  induction 1 as [|x l Hl IH Hx]; [constructor|].
  change (stable_sort R (x :: l)) with (sorted_insert R x (stable_sort R l)).
  apply sorted_insert_then_by; [done|]. by rewrite stable_sort_perm.
Qed.

End StableSort.

Section Leaderboard.

Implicit Types (d : db) (c : string) (rows : list submission_row).

#[local] Instance user_le_total : Total user_le.
Proof. intros a b. unfold user_le. lia. Qed.

#[local] Instance user_le_trans : Transitive user_le.
Proof. intros a b c. unfold user_le. lia. Qed.

Lemma StronglySorted_weaken {A} (R1 R2 : relation A) (l : list A) :
  (∀ a b, R1 a b → R2 a b) → StronglySorted R1 l → StronglySorted R2 l.
Proof.
  intros H. induction 1 as [|x l Hl IH Hx]; constructor; [done|].
  eapply Forall_impl; [exact Hx|]. intros y. apply H.
Qed.

Lemma index_scan_sorted rows : StronglySorted user_le (index_scan rows).
Proof.
  apply (StronglySorted_weaken (then_by user_le (fun _ _ => True))); [by intros a b [? _]|].
  apply stable_sort_then_by; [apply _..|].
  induction rows; constructor; [done|]. by apply Forall_true.
Qed.

Lemma sqlite_order_by_perm rows : sqlite_order_by rows ≡ₚ rows.
Proof. unfold sqlite_order_by, index_scan. by rewrite !stable_sort_perm. Qed.

Lemma sqlite_order_by_sorted rows : StronglySorted board_le (sqlite_order_by rows).
Proof. apply (stable_sort_then_by rank_le user_le), index_scan_sorted. Qed.

(** What SQLite returns is an answer the clause allows. *)
Lemma sqlite_order_by_ok rows : order_by_ok rows (sqlite_order_by rows) = true.
Proof.
  apply order_by_ok_spec. split; [apply sqlite_order_by_perm|].
  apply StronglySorted_Sorted.
  apply (StronglySorted_weaken board_le); [by intros a b [? _]|].
  apply sqlite_order_by_sorted.
Qed.

Lemma board_le_keys a b :
  board_le a b →
  score b ≤ score a
  ∧ (score a = score b → String.le (submitted_at a) (submitted_at b))
  ∧ (score a = score b → submitted_at a = submitted_at b → user_id a ≤ user_id b).
Proof.
  intros [Hab Hu]. destruct (rank_le_keys a b Hab) as [? ?].
  split; [done|]. split; [done|]. intros Hs Ht. apply Hu.
  right. split; [done|]. by rewrite Ht.
Qed.

Lemma board_le_antisym a b :
  board_le a b → board_le b a →
  score a = score b ∧ submitted_at a = submitted_at b ∧ user_id a = user_id b.
Proof.
  intros [Hab Hu] [Hba Hu']. destruct (rank_le_tie a b Hab Hba) as [? ?].
  split; [done|]. split; [done|].
  specialize (Hu Hba). specialize (Hu' Hab). unfold user_le in *. lia.
Qed.

(** Of two stores with the same submissions of a test, in whatever order
    they were inserted, SQLite returns the same rows. *)
Lemma sqlite_order_by_insertion_free rows rows' :
  NoDup (user_id <$> rows) → rows' ≡ₚ rows →
  sqlite_order_by rows' = sqlite_order_by rows.
Proof.
  intros Hnd Hperm.
  apply (StronglySorted_unique_strong board_le); try apply sqlite_order_by_sorted.
  - intros a b Ha Hb Hab Hba. destruct (board_le_antisym a b Hab Hba) as (_ & _ & Hu).
    rewrite sqlite_order_by_perm in Ha, Hb. rewrite Hperm in Ha.
    by apply (NoDup_fmap_eq user_id rows).
  - by rewrite !sqlite_order_by_perm.
Qed.

End Leaderboard.

(** The rows both handlers number are those SQLite returns for the test. *)
Lemma cmd_finish_board d uid parts d' c lines :
  cmd_finish sqlite_order_by d uid parts = (d', ClosedWithResults c lines) →
  ∃ t, select_test d c = Some t
       ∧ lines = board 10 (answer_key t) (sqlite_order_by (select_submissions d c)).
Proof.
  intros H. destruct (cmd_finish_closes _ _ _ _ _ _ H) as [[_ Hno]|Hyes].
  { by destruct (Hno c lines). }
  destruct Hyes as (c0 & t & _ & _ & _ & Hsel & _ & _ & Hw).
  unfold finish_write in Hw.
  change (select_submissions (close_test d c0) c0) with (select_submissions d c0) in Hw.
  destruct (sqlite_order_by (select_submissions d c0)) as [|x rows] eqn:Hrows; [done|].
  injection Hw as _ <- ->. exists t. by rewrite Hrows.
Qed.

Lemma cmd_results_board d parts c open lines :
  cmd_results sqlite_order_by d parts = Results c open lines →
  ∃ t, select_test d c = Some t
       ∧ lines = board 15 (answer_key t) (sqlite_order_by (select_submissions d c)).
Proof.
  unfold cmd_results. destruct (parts !! 1%nat) as [c0|]; [|done].
  destruct (select_test d c0) as [t|] eqn:Hsel; [|done].
  destruct (sqlite_order_by (select_submissions d c0)) as [|x rows] eqn:Hrows; [done|].
  intros [= <- _ <-]. exists t. by rewrite Hrows.
Qed.

Lemma example_rows_users : NoDup (user_id <$> example_rows).
Proof. by apply (bool_decide_unpack _). Qed.

(** C8, as the code has it.  The leaderboard of [cmd_finish] (its first
    ten lines) and of [cmd_results] (its first fifteen) numbers the rows the
    query returns: the submissions of the test, each once, by score
    descending, on equal score by submitted_at ascending, and on equal score
    and submitted_at by the participant's user_id ascending, the order in
    which the index of UNIQUE(test_code, user_id) yields the rows.  The
    order in which the submissions were inserted plays no part: two stores
    with the same submissions of a test give the same leaderboard.  The
    submissions of the specification's example rank U3, U2, U1. *)
Theorem leaderboard_order :
  ∀ d l c,
    reachable (Sys d l) →
    let rows := sqlite_order_by (select_submissions d c) in
    (∀ uid parts d' lines,
       cmd_finish sqlite_order_by d uid parts = (d', ClosedWithResults c lines) →
       ∃ t, select_test d c = Some t ∧ lines = board 10 (answer_key t) rows)
    ∧ (∀ parts open lines,
         cmd_results sqlite_order_by d parts = Results c open lines →
         ∃ t, select_test d c = Some t ∧ lines = board 15 (answer_key t) rows)
    ∧ rows ≡ₚ select_submissions d c
    ∧ (∀ i j a b, (i < j)%nat → rows !! i = Some a → rows !! j = Some b →
         score b ≤ score a
         ∧ (score a = score b → String.le (submitted_at a) (submitted_at b))
         ∧ (score a = score b → submitted_at a = submitted_at b →
            user_id a < user_id b))
    ∧ (∀ d2, select_submissions d2 c ≡ₚ select_submissions d c →
             sqlite_order_by (select_submissions d2 c) = rows)
    ∧ (select_submissions d c ≡ₚ example_rows → user_id <$> rows = [3; 2; 1]).
Proof.
  intros d l c Hr rows.
  assert (NoDup (user_id <$> select_submissions d c)) as Hnd.
  { apply select_submissions_users. by destruct (reachable_constraints _ Hr). }
  split; [intros uid parts d' lines; apply cmd_finish_board|].
  split; [intros parts open lines; apply cmd_results_board|].
  split; [apply sqlite_order_by_perm|]. split; [|split].
  - intros i j a b Hij Ha Hb.
    pose proof (StronglySorted_lookup_lt board_le rows
                  (sqlite_order_by_sorted _) i j a b Hij Ha Hb) as Hab.
    destruct (board_le_keys a b Hab) as (Hs & Ht & Hu).
    split; [done|]. split; [done|]. intros Hsc Hat.
    specialize (Hu Hsc Hat).
    assert (user_id a ≠ user_id b); [|lia]. intros Heq.
    assert (NoDup (user_id <$> rows)) as Hnd'.
    { subst rows. by rewrite sqlite_order_by_perm. }
    assert (i = j); [|lia].
    apply (NoDup_lookup _ i j (user_id a) Hnd'); rewrite list_lookup_fmap.
    + by rewrite Ha.
    + by rewrite Hb, Heq.
  - intros d2 Hperm. by apply sqlite_order_by_insertion_free.
  - intros Hperm. subst rows.
    by rewrite (sqlite_order_by_insertion_free example_rows _ example_rows_users Hperm).
Qed.

Lemma leaderboard_order_witness :
  reachable example_sys
  ∧ user_id <$> sqlite_order_by (select_submissions (store example_sys) "1000") = [3; 2; 1].
Proof.
  assert (reachable example_sys) as Hr by by exists rank_by_insertion, example_schedule.
  split; [exact Hr|].
  destruct (leaderboard_order (store example_sys) (inflight example_sys) "1000" Hr)
    as (_ & _ & _ & _ & _ & Hexample).
  apply Hexample. reflexivity.
Defined.

(** C8 as stated fails on a tie.  Users 2 and 1 answer the test "1000"
    with the same score and the same submitted_at, and the submission of
    user 2 is inserted first.  /results and /finish both list user 1 first:
    the tie is decided by user_id, not by the order of insertion. *)
Lemma leaderboard_tie_not_by_insertion :
  reachable tie_sys
  ∧ select_submissions (store tie_sys) "1000" = tie_rows
  ∧ user_id <$> tie_rows = [2; 1]
  ∧ score <$> tie_rows = [1; 1]
  ∧ submitted_at <$> tie_rows = ["2024-01-01T00:00:07"; "2024-01-01T00:00:07"]
  ∧ (run sqlite_order_by init_sys
       (tie_schedule ++ [ ViewResults ["/results"; "1000"];
                          Finish 9 ["/finish"; "1000"]; Resume 0 [] ""; Resume 0 [] "" ])).2
    = [ RoleSet "author"; TestCreated "1000" 2; Accepted 1 2; Accepted 1 2;
        Results "1000" true [BoardLine 1 1 1 2; BoardLine 2 2 1 2];
        ClosedWithResults "1000" [BoardLine 1 1 1 2; BoardLine 2 2 1 2] ]
  ∧ cmd_results sqlite_order_by (store tie_sys) ["/results"; "1000"]
    = Results "1000" true [BoardLine 1 1 1 2; BoardLine 2 2 1 2]
  ∧ (cmd_finish sqlite_order_by (store tie_sys) 9 ["/finish"; "1000"]).2
    = ClosedWithResults "1000" [BoardLine 1 1 1 2; BoardLine 2 2 1 2].
Proof.
  split; [by exists sqlite_order_by, tie_schedule|].
  repeat split; reflexivity.
Qed.

(** * The order of the checks of a submission (C5) *)


